(** * notion-deglacer: the Slack unfurl pipeline of [deglacer.go]

    A shallow embedding of [index], [get_text] and [unfurl], of [initialize]
    and the beginning of [Run], together with the Go string primitives they
    rest on, followed by the properties of the pipeline.  Go strings are byte sequences and are modelled as [string]
    (one [ascii] per byte); runes are [Z]. *)

From Stdlib Require Import ZArith Lia String Ascii List Bool.
From stdpp Require Import base gmap strings list fin_maps.

(** ** Go strings *)

Module GoStrings.

(** [len(s) >= len(suffix) && s[len(s)-len(suffix):] == suffix] *)
Definition HasSuffix (s suffix : string) : bool :=
  (String.length suffix <=? String.length s)%nat &&
  String.eqb
    (substring (String.length s - String.length suffix) (String.length suffix) s)
    suffix.

(** [strings.Split(s, sep)] for a one-byte separator, the only form the
    program uses: the pieces between the separators, [n+1] pieces for [n]
    separators (so [Split "" sep] is the one empty piece). *)
Fixpoint Split (s : string) (sep : ascii) : list string :=
  match s with
  | EmptyString => [EmptyString]
  | String c s' =>
      if Ascii.eqb c sep then EmptyString :: Split s' sep
      else match Split s' sep with
           | [] => [String c EmptyString]
           | piece :: pieces => String c piece :: pieces
           end
  end.

(** [strings.Join(elems, sep)] *)
Fixpoint Join (elems : list string) (sep : string) : string :=
  match elems with
  | [] => EmptyString
  | [e] => e
  | e :: es => e +:+ sep +:+ Join es sep
  end.

End GoStrings.

(** ** UTF-8: the conversions [[]rune(s)] and [string(rs)] *)

Module Utf8.

Local Open Scope Z_scope.

Definition RuneError : Z := 0xFFFD.
Definition MaxRune : Z := 0x10FFFF.
Definition surrogateMin : Z := 0xD800.
Definition surrogateMax : Z := 0xDFFF.
Definition rune1Max : Z := 0x7F.
Definition rune2Max : Z := 0x7FF.
Definition rune3Max : Z := 0xFFFF.

Definition tx : Z := 0x80.
Definition t2 : Z := 0xC0.
Definition t3 : Z := 0xE0.
Definition t4 : Z := 0xF0.
Definition maskx : Z := 0x3F.
Definition mask2 : Z := 0x1F.
Definition mask3 : Z := 0x0F.
Definition mask4 : Z := 0x07.
Definition locb : Z := 0x80.
Definition hicb : Z := 0xBF.

(** The value of a byte of a string, and the conversion [byte(z)] of a
    non-negative integer, which keeps the low eight bits. *)
Definition byte_val (c : ascii) : Z := Z.of_N (N_of_ascii c).
Definition byte_of (z : Z) : ascii := ascii_of_N (Z.to_N z).

(** What the lead byte of a multi-byte sequence announces: the length of the
    sequence and the range its second byte must lie in.  [None] for a byte that
    cannot start a sequence (a continuation byte, an overlong lead 0xC0/0xC1,
    or 0xF5 and above). *)
Definition first (s0 : Z) : option (nat * Z * Z) :=
  if s0 <? 0xC2 then None
  else if s0 <? 0xE0 then Some (2%nat, locb, hicb)
  else if s0 =? 0xE0 then Some (3%nat, 0xA0, hicb)
  else if s0 =? 0xED then Some (3%nat, locb, 0x9F)
  else if s0 <? 0xF0 then Some (3%nat, locb, hicb)
  else if s0 =? 0xF0 then Some (4%nat, 0x90, hicb)
  else if s0 <? 0xF4 then Some (4%nat, locb, hicb)
  else if s0 =? 0xF4 then Some (4%nat, locb, 0x8F)
  else None.

Definition rune2 (s0 s1 : Z) : Z :=
  Z.lor (Z.shiftl (Z.land s0 mask2) 6) (Z.land s1 maskx).
Definition rune3 (s0 s1 s2 : Z) : Z :=
  Z.lor (Z.lor (Z.shiftl (Z.land s0 mask3) 12) (Z.shiftl (Z.land s1 maskx) 6))
        (Z.land s2 maskx).
Definition rune4 (s0 s1 s2 s3 : Z) : Z :=
  Z.lor (Z.lor (Z.lor (Z.shiftl (Z.land s0 mask4) 18)
                      (Z.shiftl (Z.land s1 maskx) 12))
               (Z.shiftl (Z.land s2 maskx) 6))
        (Z.land s3 maskx).

(** [utf8.DecodeRuneInString]: the first rune of [s] and its width in bytes;
    [(RuneError, 1)] for an ill-formed sequence, [(RuneError, 0)] for the
    empty string. *)
Definition DecodeRuneInString (s : string) : Z * nat :=
  match s with
  | EmptyString => (RuneError, 0%nat)
  | String c0 t0 =>
      let s0 := byte_val c0 in
      if s0 <? 0x80 then (s0, 1%nat)
      else match first s0 with
      | None => (RuneError, 1%nat)
      | Some (sz, lo, hi) =>
          if (String.length s <? sz)%nat then (RuneError, 1%nat)
          else match t0 with
          | EmptyString => (RuneError, 1%nat)
          | String c1 t1 =>
              let s1 := byte_val c1 in
              if (s1 <? lo) || (hi <? s1) then (RuneError, 1%nat)
              else if (sz <=? 2)%nat then (rune2 s0 s1, 2%nat)
              else match t1 with
              | EmptyString => (RuneError, 1%nat)
              | String c2 t2 =>
                  let s2 := byte_val c2 in
                  if (s2 <? locb) || (hicb <? s2) then (RuneError, 1%nat)
                  else if (sz <=? 3)%nat then (rune3 s0 s1 s2, 3%nat)
                  else match t2 with
                  | EmptyString => (RuneError, 1%nat)
                  | String c3 _ =>
                      let s3 := byte_val c3 in
                      if (s3 <? locb) || (hicb <? s3) then (RuneError, 1%nat)
                      else (rune4 s0 s1 s2 s3, 4%nat)
                  end
              end
          end
      end
  end.

(** [[]rune(s)]: decode rune after rune, an ill-formed byte giving U+FFFD and
    advancing by one.  [skip] counts the bytes of the current rune still to be
    passed over. *)
Fixpoint runes_from (skip : nat) (s : string) : list Z :=
  match s with
  | EmptyString => []
  | String _ t =>
      match skip with
      | S k => runes_from k t
      | O => let '(r, size) := DecodeRuneInString s in
             r :: runes_from (size - 1) t
      end
  end.

Definition runes_of_string (s : string) : list Z := runes_from 0 s.

(** [utf8.ValidString]: no decoding step reports an ill-formed sequence. *)
Fixpoint valid_from (skip : nat) (s : string) : bool :=
  match s with
  | EmptyString => true
  | String _ t =>
      match skip with
      | S k => valid_from k t
      | O => let '(r, size) := DecodeRuneInString s in
             if (r =? RuneError) && (size =? 1)%nat then false
             else valid_from (size - 1) t
      end
  end.

Definition ValidString (s : string) : bool := valid_from 0 s.

Definition encode3 (r : Z) : string :=
  String (byte_of (Z.lor t3 (Z.shiftr r 12 mod 256)))
 (String (byte_of (Z.lor tx (Z.land (Z.shiftr r 6 mod 256) maskx)))
 (String (byte_of (Z.lor tx (Z.land (r mod 256) maskx))) EmptyString)).

(** [utf8.EncodeRune] / [utf8.AppendRune]; the switch is on [uint32(r)], so a
    negative rune, like a surrogate or one above [MaxRune], is written as
    U+FFFD. *)
Definition EncodeRune (r : Z) : string :=
  let i := r mod 2 ^ 32 in
  if i <=? rune1Max then String (byte_of r) EmptyString
  else if i <=? rune2Max then
    String (byte_of (Z.lor t2 (Z.shiftr r 6 mod 256)))
   (String (byte_of (Z.lor tx (Z.land (r mod 256) maskx))) EmptyString)
  else if (MaxRune <? i) || ((surrogateMin <=? i) && (i <=? surrogateMax)) then
    encode3 RuneError
  else if i <=? rune3Max then encode3 r
  else
    String (byte_of (Z.lor t4 (Z.shiftr r 18 mod 256)))
   (String (byte_of (Z.lor tx (Z.land (Z.shiftr r 12 mod 256) maskx)))
   (String (byte_of (Z.lor tx (Z.land (Z.shiftr r 6 mod 256) maskx)))
   (String (byte_of (Z.lor tx (Z.land (r mod 256) maskx))) EmptyString))).

(** [string(rs)] *)
Fixpoint string_of_runes (rs : list Z) : string :=
  match rs with
  | [] => EmptyString
  | r :: rs' => EncodeRune r +:+ string_of_runes rs'
  end.

End Utf8.

(** ** The libraries' data, one module per Go package *)

(** A Go [error], by its message. *)
Definition error : Type := string.

(** A Go [(value, err)] pair. *)
Inductive result (A : Type) : Type :=
| Ok (a : A)
| Err (err : error).
Arguments Ok {A} a.
Arguments Err {A} err.

Module slackevents.

Record SharedLinks : Type := { Domain : string; URL : string }.

(** [MessageTimeStamp] is a [json.Number], a string. *)
Record LinkSharedEvent : Type := {
  Channel : string;
  MessageTimeStamp : string;
  Links : list SharedLinks
}.

(** The dynamic type of [InnerEvent.Data], as far as the type assertion
    to a pointer to [LinkSharedEvent] tells it apart. *)
Inductive InnerData : Type :=
| LinkSharedData (inEv : LinkSharedEvent)
| OtherData.

Record EventsAPIInnerEvent : Type := { InnerType : string; Data : InnerData }.
Record EventsAPIEvent : Type := { Type_ : string; InnerEvent : EventsAPIInnerEvent }.
Record ChallengeResponse : Type := { Challenge : string }.

Definition URLVerification : string := "url_verification".
Definition CallbackEvent : string := "event_callback".
Definition LinkShared : string := "link_shared".

End slackevents.

Module slack.

Record Attachment : Type := {
  Title : string;
  TitleLink : string;
  Footer : string;
  Text : string
}.

End slack.

Module url.

Record URL : Type := {
  Scheme : string;
  Opaque : string;
  User : option (string * option string);
  Host : string;
  Path : string;
  RawPath : string;
  ForceQuery : bool;
  RawQuery : string;
  Fragment : string;
  RawFragment : string
}.

(** [u.RawQuery = q] *)
Definition set_RawQuery (u : URL) (q : string) : URL :=
  {| Scheme := Scheme u; Opaque := Opaque u; User := User u; Host := Host u;
     Path := Path u; RawPath := RawPath u; ForceQuery := ForceQuery u;
     RawQuery := q; Fragment := Fragment u; RawFragment := RawFragment u |}.

(** [u.Fragment = f] *)
Definition set_Fragment (u : URL) (f : string) : URL :=
  {| Scheme := Scheme u; Opaque := Opaque u; User := User u; Host := Host u;
     Path := Path u; RawPath := RawPath u; ForceQuery := ForceQuery u;
     RawQuery := RawQuery u; Fragment := f; RawFragment := RawFragment u |}.

End url.

Import slackevents.

(** ** The collaborators

    The libraries and remote services the program calls, none of them part of
    the repository: they are the interface the program is verified against. *)

Class Collaborators : Type := {
  (** configuration read by [initialize] *)
  slackSigningSecret : string;
  (** net/http: the request headers, and the error [w.Write(data)] reports *)
  http_Header : Type;
  write_error : string -> option error;
  (** slack: the signature verifier *)
  SecretsVerifier : Type;
  NewSecretsVerifier : http_Header -> string -> result SecretsVerifier;
  sv_Write : SecretsVerifier -> string -> SecretsVerifier;
  sv_Ensure : SecretsVerifier -> option error;
  (** slackevents and encoding/json; [json.Unmarshal] into a nil pointer
      leaves it nil on the JSON value null *)
  ParseEvent : string -> result EventsAPIEvent;
  json_Unmarshal : string -> result (option ChallengeResponse);
  (** net/url *)
  url_Parse : string -> result url.URL;
  URL_String : url.URL -> string;
  (** notionapi: [page.Root().Title], [page.Root().TableViews] and
      [view.Collection.GetName()] are read through accessors *)
  Page : Type;
  TableView : Type;
  Root_Title : Page -> string;
  Root_TableViews : Page -> list TableView;
  Collection_GetName : TableView -> string;
  ExtractNoDashIDFromNotionURL : string -> string;
  ToMarkdown : Page -> string;
  (** the remote services: the state of the world outside the process, and
      the two calls that reach it *)
  World : Type;
  DownloadPage : string -> World -> result Page * World;
  PostMessage : string -> string -> gmap string slack.Attachment ->
                World -> option error * World
}.

(** ** The program *)

(** What a task does that is visible outside it, in order. *)
Inductive effect : Type :=
| Log (msg : string)
| Println (s : string)
| Download (pageID : string)
| PostUnfurl (channel ts : string) (unfurls : gmap string slack.Attachment)
| Go (ev : LinkSharedEvent).

Inductive outcome (A : Type) : Type :=
| Returned (a : A)
| Panicked (msg : string).
Arguments Returned {A} a.
Arguments Panicked {A} msg.

Section Program.

Context {C : Collaborators}.

(** A run of a task from a state of the world. *)
Record run (A : Type) : Type := {
  outcome_of : outcome A;
  remote : World;
  effects : list effect
}.
Arguments outcome_of {A} r.
Arguments remote {A} r.
Arguments effects {A} r.

Definition Task (A : Type) : Type := World -> run A.

Definition ret {A : Type} (a : A) : Task A :=
  fun w => {| outcome_of := Returned a; remote := w; effects := [] |}.

Definition bind {A B : Type} (m : Task A) (k : A -> Task B) : Task B :=
  fun w =>
    let r := m w in
    match outcome_of r with
    | Returned a =>
        let r' := k a (remote r) in
        {| outcome_of := outcome_of r'; remote := remote r';
           effects := effects r ++ effects r' |}
    | Panicked msg =>
        {| outcome_of := Panicked msg; remote := remote r; effects := effects r |}
    end.

Definition panic {A : Type} (msg : string) : Task A :=
  fun w => {| outcome_of := Panicked msg; remote := w; effects := [] |}.

Definition emit (e : effect) : Task unit :=
  fun w => {| outcome_of := Returned tt; remote := w; effects := [e] |}.

(** [notionClient.DownloadPage(pageID)] *)
Definition downloadPage (pageID : string) : Task (result Page) :=
  fun w =>
    let '(r, w') := DownloadPage pageID w in
    {| outcome_of := Returned r; remote := w'; effects := [Download pageID] |}.

(** [slackCli.PostMessage(channel, slack.MsgOptionUnfurl(ts, unfurls))] *)
Definition postMessage (channel ts : string)
    (unfurls : gmap string slack.Attachment) : Task (option error) :=
  fun w =>
    let '(err, w') := PostMessage channel ts unfurls w in
    {| outcome_of := Returned err; remote := w';
       effects := [PostUnfurl channel ts unfurls] |}.

End Program.

Arguments outcome_of {_ A} r.
Arguments remote {_ A} r.
Arguments effects {_ A} r.

Notation "x <- m ;; k" := (bind m (fun x => k))
  (at level 100, m at level 99, right associativity, only parsing).
Notation "m ;;; k" := (bind m (fun _ => k))
  (at level 100, right associativity, only parsing).

(** *** [get_text] *)

Definition num_lines : nat := 25.
Definition max_chars : nat := 1000.

(** The loop of [get_text] over the pieces of [strings.Split(md, "\n")], from
    index [i] on, with the lines collected so far: the pieces at index 0 and 1
    are passed over, every other piece is appended, and the loop is left once
    [num_lines] lines are collected. *)
Fixpoint get_text_lines (i : nat) (pieces : list string) (lines : list string)
    : list string :=
  match pieces with
  | [] => lines
  | line :: rest =>
      let lines := if negb (i =? 0)%nat && negb (i =? 1)%nat
                   then (lines ++ [line])%list else lines in
      if (num_lines <=? length lines)%nat then lines
      else get_text_lines (S i) rest lines
  end.

(** The part of [get_text] that follows the conversion to markdown. *)
Definition text_of_markdown (md : string) : string :=
  let lines := get_text_lines 0 (GoStrings.Split md "010"%char) [] in
  let text := GoStrings.Join lines (String "010"%char EmptyString) in
  let rs := Utf8.runes_of_string text in
  let rs := if (max_chars <=? length rs)%nat then take max_chars rs else rs in
  Utf8.string_of_runes rs.

(** An HTTP request, as far as the handler reads it; [Body] is what
    [ioutil.ReadAll(r.Body)] returns. *)
Record Request (header : Type) : Type := {
  Method : string;
  Header : header;
  Body : result string
}.
Arguments Method {header} r.
Arguments Header {header} r.
Arguments Body {header} r.

Section Deglacer.

Context {C : Collaborators}.

Definition get_text (page : Page) : string :=
  text_of_markdown (ToMarkdown page).

(** *** [unfurl] *)

(** The body of the loop over [ev.Links]: the map of unfurls after the link,
    unchanged where the source says [continue]. *)
Definition unfurl_link (unfurls : gmap string slack.Attachment)
    (link : SharedLinks) : Task (gmap string slack.Attachment) :=
  if negb (GoStrings.HasSuffix (Domain link) ".notion.so") then ret unfurls
  else match url_Parse (URL link) with
  | Err err => emit (Log err) ;;; ret unfurls
  | Ok u =>
      let u := url.set_RawQuery u "" in
      let u := url.set_Fragment u "" in
      let pageID := ExtractNoDashIDFromNotionURL (URL_String u) in
      r <- downloadPage pageID ;;
      match r with
      | Err err => emit (Log err) ;;; ret unfurls
      | Ok page =>
          let title := Root_Title page in
          found <-
            (if (title =? "")%string then
               match Root_TableViews page with
               | [] => panic "runtime error: index out of range [0] with length 0"
               | view :: _ =>
                   let title := Collection_GetName view in
                   if (title =? "")%string
                   then emit (Log "title is not found") ;;; ret None
                   else ret (Some title)
               end
             else ret (Some title)) ;;
          match found with
          | None => ret unfurls
          | Some title =>
              emit (Println title) ;;;
              ret (<[URL link :=
                       {| slack.Title := title;
                          slack.TitleLink := URL link;
                          slack.Footer := "Notion";
                          slack.Text := get_text page |}]> unfurls)
          end
      end
  end.

(** [for _, link := range ev.Links { ... }] *)
Fixpoint unfurl_links (links : list SharedLinks)
    (unfurls : gmap string slack.Attachment)
    : Task (gmap string slack.Attachment) :=
  match links with
  | [] => ret unfurls
  | link :: rest =>
      unfurls' <- unfurl_link unfurls link ;;
      unfurl_links rest unfurls'
  end.

Definition unfurl (ev : LinkSharedEvent) : Task unit :=
  unfurls <- unfurl_links (Links ev) ∅ ;;
  if (size unfurls =? 0)%nat then ret tt
  else
    err <- postMessage (Channel ev) (MessageTimeStamp ev) unfurls ;;
    match err with
    | Some err => emit (Log err)
    | None => ret tt
    end.

(** *** [index] *)

(** The response as the handler has shaped it: the status once the header is
    written, the headers set before that, and the body handed over. *)
Record ResponseWriter : Type := {
  wroteHeader : option nat;
  header : gmap string string;
  body : string
}.

Definition newResponseWriter : ResponseWriter :=
  {| wroteHeader := None; header := ∅; body := EmptyString |}.

(** [w.WriteHeader(code)]: only the first call counts. *)
Definition WriteHeader (w : ResponseWriter) (code : nat) : ResponseWriter :=
  match wroteHeader w with
  | Some _ => w
  | None => {| wroteHeader := Some code; header := header w; body := body w |}
  end.

(** [w.Header().Set(key, value)]: without effect once the header is written. *)
Definition Header_Set (w : ResponseWriter) (key value : string) : ResponseWriter :=
  match wroteHeader w with
  | Some _ => w
  | None => {| wroteHeader := None; header := <[key := value]> (header w);
               body := body w |}
  end.

(** [w.Write(data)]: writes the header with status 200 if none is written yet,
    then the data, unless the connection reports an error. *)
Definition Write (w : ResponseWriter) (data : string)
    : ResponseWriter * option error :=
  let w := WriteHeader w 200 in
  match write_error data with
  | Some err => (w, Some err)
  | None =>
      ({| wroteHeader := wroteHeader w; header := header w;
          body := body w +:+ data |}, None)
  end.

(** [fmt.Fprint(w, s)], the error dropped *)
Definition Fprint (w : ResponseWriter) (s : string) : ResponseWriter :=
  fst (Write w s).

(** [http.Error(w, msg, code)] *)
Definition http_Error (w : ResponseWriter) (msg : string) (code : nat)
    : ResponseWriter :=
  let w := Header_Set w "Content-Type" "text/plain; charset=utf-8" in
  let w := Header_Set w "X-Content-Type-Options" "nosniff" in
  let w := WriteHeader w code in
  Fprint w (msg +:+ String "010"%char EmptyString).

(** The status the client receives: 200 when the handler returns without
    having written a header. *)
Definition status (w : ResponseWriter) : nat := default 200 (wroteHeader w).

Definition StatusBadRequest : nat := 400.
Definition StatusMethodNotAllowed : nat := 405.

(** What one call of the handler leaves behind. *)
Record handled : Type := {
  response : ResponseWriter;
  handler_effects : list effect;
  handler_outcome : outcome unit
}.

Definition done (w : ResponseWriter) (es : list effect) : handled :=
  {| response := w; handler_effects := es; handler_outcome := Returned tt |}.

Definition index (r : Request http_Header) : handled :=
  let w := newResponseWriter in
  if (Method r =? "GET")%string then done (Fprint w "Hello") []
  else if (Method r =? "POST")%string then
    match Body r with
    | Err err => done (WriteHeader w StatusBadRequest) [Log err]
    | Ok body =>
    match NewSecretsVerifier (Header r) slackSigningSecret with
    | Err err => done (WriteHeader w StatusBadRequest) [Log err]
    | Ok sv =>
    let sv := sv_Write sv body in
    match sv_Ensure sv with
    | Some err => done (WriteHeader w StatusBadRequest) [Log err]
    | None =>
    match ParseEvent body with
    | Err err => done (WriteHeader w StatusBadRequest) [Log err]
    | Ok ev =>
        if (Type_ ev =? URLVerification)%string then
          match json_Unmarshal body with
          | Err err => done (WriteHeader w StatusBadRequest) [Log err]
          | Ok None =>
              {| response := w; handler_effects := [];
                 handler_outcome :=
                   Panicked "runtime error: invalid memory address or nil pointer dereference" |}
          | Ok (Some res) =>
              let w := Header_Set w "Content-Type" "text/plain" in
              let '(w, err) := Write w (Challenge res) in
              match err with
              | Some err => done (WriteHeader w StatusBadRequest) [Log err]
              | None => done w []
              end
          end
        else if (Type_ ev =? CallbackEvent)%string then
          if negb (InnerType (InnerEvent ev) =? LinkShared)%string
          then done (Fprint w "ok") []
          else match Data (InnerEvent ev) with
          | LinkSharedData inEv => done (Fprint w "ok") [Go inEv]
          | OtherData => done (WriteHeader w StatusBadRequest) []
          end
        else done w []
    end end end end
  else done (http_Error w "method not allowed" StatusMethodNotAllowed) [].

(** The effects of the tasks a handler has started with [go], run one after
    the other from the world [w]. *)
Fixpoint spawned_effects (es : list effect) (w : World) : list effect :=
  match es with
  | [] => []
  | Go ev :: rest =>
      let r := unfurl ev w in
      effects r ++ spawned_effects rest (remote r)
  | _ :: rest => spawned_effects rest w
  end.

Definition is_outbound (e : effect) : bool :=
  match e with
  | Download _ | PostUnfurl _ _ _ => true
  | _ => false
  end.

(** The calls to the document service and to Slack that a request causes. *)
Definition outbound_calls (r : Request http_Header) (w : World) : list effect :=
  List.filter is_outbound (spawned_effects (handler_effects (index r)) w).

End Deglacer.

(** ** Start-up: [initialize] and the beginning of [Run] *)

Module os.

(** The environment of the process. *)
Definition Environ : Type := gmap string string.

(** [os.Getenv(key)]: the value of the variable, empty when it is not set. *)
Definition Getenv (env : Environ) (key : string) : string :=
  default "" (env !! key).

End os.

(** The package variables; a client is told by the token it was built with,
    and is [None] while the pointer is nil. *)
Module vars.

Record t : Type := {
  notionClient : option string;
  slackCli : option string;
  slackSigningSecret : string
}.

(** The variables before [initialize] has run. *)
Definition zero : t :=
  {| notionClient := None; slackCli := None; slackSigningSecret := "" |}.

End vars.

(** [initialize]: the variables after the call, and the error returned. *)
Definition initialize (env : os.Environ) (g : vars.t) : vars.t * option error :=
  let notionToken := os.Getenv env "NOTION_TOKEN" in
  let g := {| vars.notionClient := Some notionToken;
              vars.slackCli := vars.slackCli g;
              vars.slackSigningSecret := vars.slackSigningSecret g |} in
  let g := {| vars.notionClient := vars.notionClient g;
              vars.slackCli := vars.slackCli g;
              vars.slackSigningSecret := os.Getenv env "SLACK_SIGNING_SECRET" |} in
  if (vars.slackSigningSecret g =? "")%string
  then (g, Some "env SLACK_SIGNING_SECRET required")
  else
    let slackToken := os.Getenv env "SLACK_TOKEN" in
    if (slackToken =? "")%string then (g, Some "env SLACK_TOKEN is empty")
    else ({| vars.notionClient := vars.notionClient g;
             vars.slackCli := Some slackToken;
             vars.slackSigningSecret := vars.slackSigningSecret g |}, None).

(** [Run] as far as the server it builds: the error it returns before
    building one, or else the [Addr] of the [http.Server] whose handler is
    [index]. *)
Definition Run_server_Addr (env : os.Environ) (g : vars.t)
    : vars.t * result string :=
  let '(g, err) := initialize env g in
  match err with
  | Some err => (g, Err err)
  | None =>
      let port := os.Getenv env "PORT" in
      let port := if (port =? "")%string then "8080" else port in
      (g, Ok (":" +:+ port))
  end.

(** ** Notions the properties are stated with *)

Section Notions.

Context {C : Collaborators}.

(** The run [r] with the effects [es] in front of its own. *)
Definition after {A : Type} (es : list effect) (r : run A) : run A :=
  {| outcome_of := outcome_of r; remote := remote r;
     effects := (es ++ effects r)%list |}.

(** The entry the loop body inserts for a link from the world [w], if it
    inserts one: the entry found under the link's URL when the body is run on
    the empty map. *)
Definition resolution (link : SharedLinks) (w : World)
    : option slack.Attachment :=
  match outcome_of (unfurl_link ∅ link w) with
  | Returned unfurls => unfurls !! URL link
  | Panicked _ => None
  end.

(** The links of an event that resolve successfully, in order, each with its
    entry; the world is handed from link to link as the loop does, and nothing
    is resolved after a panic. *)
Fixpoint resolved (links : list SharedLinks) (w : World)
    : list (string * slack.Attachment) :=
  match links with
  | [] => []
  | link :: rest =>
      let r := unfurl_link ∅ link w in
      match outcome_of r with
      | Returned _ =>
          (match resolution link w with
           | Some a => [(URL link, a)]
           | None => []
           end ++ resolved rest (remote r))%list
      | Panicked _ => []
      end
  end.

Definition is_post (e : effect) : bool :=
  match e with
  | PostUnfurl _ _ _ => true
  | _ => false
  end.

Definition is_go (e : effect) : bool :=
  match e with
  | Go _ => true
  | _ => false
  end.

(** The calls to [slackCli.PostMessage] among the effects. *)
Definition posts (es : list effect) : list effect := List.filter is_post es.

(** The map the loop builds from [unfurls] when it inserts the entries [rs]
    one after the other. *)
Definition batch_from (unfurls : gmap string slack.Attachment)
    (rs : list (string * slack.Attachment)) : gmap string slack.Attachment :=
  foldl (fun acc e => <[e.1 := e.2]> acc) unfurls rs.

(** The statement that an event of which some but not all links resolve is
    answered by one post whose batch has as many entries as links resolved. *)
Definition one_entry_per_resolved_link (ev : LinkSharedEvent) (w : World) : Prop :=
  let M := length (resolved (Links ev) w) in
  1 <= M -> M < length (Links ev) ->
  exists batch,
    posts (effects (unfurl ev w)) =
      [PostUnfurl (Channel ev) (MessageTimeStamp ev) batch] /\
    size batch = M.

(** The cut of a text to [max_chars] runes, as the tail of [get_text] does it. *)
Definition truncate (text : string) : string :=
  let rs := Utf8.runes_of_string text in
  Utf8.string_of_runes
    (if (max_chars <=? length rs)%nat then take max_chars rs else rs).

(** Whether the byte [c] occurs in [s]. *)
Fixpoint has_byte (c : ascii) (s : string) : bool :=
  match s with
  | EmptyString => false
  | String a s' => Ascii.eqb a c || has_byte c s'
  end.

(** The line feed, as a byte and as a string. *)
Definition LF : ascii := "010"%char.
Definition newline : string := String LF EmptyString.

(** A title the loop body accepts for a page: the page's own if it is not
    empty, else the name of the first table view if that is not empty. *)
Definition usable_title (page : Page) (title : string) : Prop :=
  title <> "" /\
  (Root_Title page = title \/
   Root_Title page = "" /\
   exists view views, Root_TableViews page = view :: views /\
                      Collection_GetName view = title).

(** The outcome of the signature check on a body that was read: the error of
    [slack.NewSecretsVerifier], or else the one of [sv.Ensure()] after
    [sv.Write(body)]. *)
Definition signature_error (hdr : http_Header) (body : string) : option error :=
  match NewSecretsVerifier hdr slackSigningSecret with
  | Err err => Some err
  | Ok sv => sv_Ensure (sv_Write sv body)
  end.

End Notions.

(** The collaborators [C] with another event parser and JSON decoder. *)
Definition with_parsers (C : Collaborators)
    (parseEvent : string -> result EventsAPIEvent)
    (unmarshal : string -> result (option ChallengeResponse)) : Collaborators :=
  {| slackSigningSecret := @slackSigningSecret C;
     http_Header := @http_Header C;
     write_error := @write_error C;
     SecretsVerifier := @SecretsVerifier C;
     NewSecretsVerifier := @NewSecretsVerifier C;
     sv_Write := @sv_Write C;
     sv_Ensure := @sv_Ensure C;
     ParseEvent := parseEvent;
     json_Unmarshal := unmarshal;
     url_Parse := @url_Parse C;
     URL_String := @URL_String C;
     Page := @Page C;
     TableView := @TableView C;
     Root_Title := @Root_Title C;
     Root_TableViews := @Root_TableViews C;
     Collection_GetName := @Collection_GetName C;
     ExtractNoDashIDFromNotionURL := @ExtractNoDashIDFromNotionURL C;
     ToMarkdown := @ToMarkdown C;
     World := @World C;
     DownloadPage := @DownloadPage C;
     PostMessage := @PostMessage C |}.

(** The well-formed multi-byte sequences of UTF-8 (Unicode, table 3-7), on
    the values of their bytes. *)
Definition seq2 (s0 s1 : Z) : Prop :=
  (0xC2 <= s0 <= 0xDF /\ 0x80 <= s1 <= 0xBF)%Z.

Definition seq3 (s0 s1 s2 : Z) : Prop :=
  (0xE0 <= s0 <= 0xEF /\ 0x80 <= s1 <= 0xBF /\
   (s0 = 0xE0 -> 0xA0 <= s1) /\ (s0 = 0xED -> s1 <= 0x9F) /\
   0x80 <= s2 <= 0xBF)%Z.

Definition seq4 (s0 s1 s2 s3 : Z) : Prop :=
  (0xF0 <= s0 <= 0xF4 /\ 0x80 <= s1 <= 0xBF /\
   (s0 = 0xF0 -> 0x90 <= s1) /\ (s0 = 0xF4 -> s1 <= 0x8F) /\
   0x80 <= s2 <= 0xBF /\ 0x80 <= s3 <= 0xBF)%Z.

(** A rune that [string(rs)] writes and [[]rune(s)] reads back: whatever
    follows its encoding, decoding gives the rune and the width of the
    encoding, and never the mark of an ill-formed byte. *)
Definition reads_back (r : Z) : Prop :=
  (forall rest,
     Utf8.DecodeRuneInString (Utf8.EncodeRune r +:+ rest)
     = (r, String.length (Utf8.EncodeRune r))) /\
  1 <= String.length (Utf8.EncodeRune r) /\
  (r =? Utf8.RuneError)%Z && (String.length (Utf8.EncodeRune r) =? 1)%nat = false.

(** [s[n:]], empty when [s] is shorter than [n]. *)
Fixpoint sdrop (n : nat) (s : string) : string :=
  match n, s with
  | O, _ => s
  | S n', String _ t => sdrop n' t
  | S _, EmptyString => EmptyString
  end.

(** The text [get_text] cuts: the lines it keeps, joined. *)
Definition extracted_text (md : string) : string :=
  GoStrings.Join (get_text_lines 0 (GoStrings.Split md LF) []) newline.

(** The statement that the preview of a markdown whose extracted text has at
    most 1000 code points is the extracted text, unchanged. *)
Definition short_text_is_unchanged (md : string) : Prop :=
  length (Utf8.runes_of_string (extracted_text md)) <= 1000 ->
  text_of_markdown md = extracted_text md.

(** The collaborators [C] with other remote services behind the two calls. *)
Definition with_services (C : Collaborators)
    (download : string -> @World C -> result (@Page C) * @World C)
    (post : string -> string -> gmap string slack.Attachment ->
            @World C -> option error * @World C) : Collaborators :=
  {| slackSigningSecret := @slackSigningSecret C;
     http_Header := @http_Header C;
     write_error := @write_error C;
     SecretsVerifier := @SecretsVerifier C;
     NewSecretsVerifier := @NewSecretsVerifier C;
     sv_Write := @sv_Write C;
     sv_Ensure := @sv_Ensure C;
     ParseEvent := @ParseEvent C;
     json_Unmarshal := @json_Unmarshal C;
     url_Parse := @url_Parse C;
     URL_String := @URL_String C;
     Page := @Page C;
     TableView := @TableView C;
     Root_Title := @Root_Title C;
     Root_TableViews := @Root_TableViews C;
     Collection_GetName := @Collection_GetName C;
     ExtractNoDashIDFromNotionURL := @ExtractNoDashIDFromNotionURL C;
     ToMarkdown := @ToMarkdown C;
     World := @World C;
     DownloadPage := download;
     PostMessage := post |}.

(** A request whose body was read, passed the signature check and parsed as
    the event [ev]. *)
Definition verified_event {C : Collaborators} (r : Request http_Header)
    (payload : string) (ev : EventsAPIEvent) : Prop :=
  Method r = "POST" /\ Body r = Ok payload /\
  signature_error (Header r) payload = None /\
  ParseEvent payload = Ok ev.

(** Whether the domain of a link passes the filter of [unfurl]. *)
Definition matching (link : SharedLinks) : bool :=
  GoStrings.HasSuffix (Domain link) ".notion.so".

Definition is_download (e : effect) : bool :=
  match e with
  | Download _ => true
  | _ => false
  end.

(** The calls to [notionClient.DownloadPage] among the effects. *)
Definition downloads (es : list effect) : list effect :=
  List.filter is_download es.

(** The event with the links of a matching domain only. *)
Definition matching_only (ev : LinkSharedEvent) : LinkSharedEvent :=
  {| Channel := Channel ev; MessageTimeStamp := MessageTimeStamp ev;
     Links := List.filter matching (Links ev) |}.

(** The last entry a list of entries holds for the key [k]. *)
Definition last_entry (rs : list (string * slack.Attachment)) (k : string)
    : option slack.Attachment :=
  snd <$> last (List.filter (fun e => String.eqb e.1 k) rs).

(** A Unicode scalar value: a code point that is not a surrogate. *)
Definition scalar_value (r : Z) : Prop :=
  (0 <= r < Utf8.surrogateMin \/ Utf8.surrogateMax < r <= Utf8.MaxRune)%Z.

(** How often the byte [c] occurs in [s]. *)
Fixpoint count_byte (c : ascii) (s : string) : nat :=
  match s with
  | EmptyString => 0
  | String a s' => (if Ascii.eqb a c then 1 else 0) + count_byte c s'
  end.

(** ** A small concrete world

    Stand-ins for the collaborators, simple enough to evaluate: a signature
    that is the secret, the timestamp and the body side by side instead of
    their HMAC, a one-line event format instead of JSON, a URL parser that
    only knows [?] and [#], and a document service holding three pages. *)

Module Demo.

Record page : Type := {
  title : string;
  views : list string;
  markdown : string
}.

Definition nl : string := String "010"%char EmptyString.

Definition roadmap : page :=
  {| title := "Roadmap"; views := [];
     markdown := "# Roadmap" +:+ nl +:+ nl +:+ "Q1: ship" +:+ nl +:+ "Q2: rest" |}.

Definition board : page :=
  {| title := ""; views := ["Tasks"; "Archive"];
     markdown := "# Tasks" +:+ nl +:+ nl +:+ "todo" |}.

Definition untitled : page :=
  {| title := ""; views := []; markdown := nl +:+ nl +:+ "draft" |}.

Definition pages (pageID : string) : result page :=
  if (pageID =? "https://x.notion.so/Roadmap-abc123")%string then Ok roadmap
  else if (pageID =? "https://x.notion.so/Tasks-def456")%string then Ok board
  else if (pageID =? "https://x.notion.so/Untitled-0a0a0a")%string then Ok untitled
  else Err "notion: page not found".

(** The part of [s] before the first [c], and the part after it if there is one. *)
Fixpoint cut (s : string) (c : ascii) : string * option string :=
  match s with
  | EmptyString => (EmptyString, None)
  | String a s' =>
      if Ascii.eqb a c then (EmptyString, Some s')
      else let '(before, after) := cut s' c in (String a before, after)
  end.

Definition parse (rawURL : string) : result url.URL :=
  match rawURL with
  | String ":" _ => Err "parse: missing protocol scheme"
  | _ =>
      let '(rest, frag) := cut rawURL "#" in
      let '(path, query) := cut rest "?" in
      Ok {| url.Scheme := ""; url.Opaque := ""; url.User := None; url.Host := "";
            url.Path := path; url.RawPath := "";
            url.ForceQuery := match query with Some EmptyString => true | _ => false end;
            url.RawQuery := default "" query;
            url.Fragment := default "" frag; url.RawFragment := "" |}
  end.

Definition unparse (u : url.URL) : string :=
  url.Path u
  +:+ (if url.ForceQuery u || negb (url.RawQuery u =? "")%string
       then "?" +:+ url.RawQuery u else "")
  +:+ (if (url.Fragment u =? "")%string then "" else "#" +:+ url.Fragment u).

(** The verifier keeps the signature of the request and what it is to be
    compared with. *)
Definition verifier (hdr : option string * option string) (secret : string)
    : result (string * string) :=
  match hdr with
  | (Some signature, Some timestamp) =>
      Ok (signature, "v0=" +:+ secret +:+ ":" +:+ timestamp +:+ ":")
  | _ => Err "missing headers"
  end.

Definition the_links : list SharedLinks :=
  [ {| Domain := "x.notion.so"; URL := "https://x.notion.so/Roadmap-abc123?v=1" |};
    {| Domain := "example.com"; URL := "https://example.com/page" |} ].

Definition the_event : LinkSharedEvent :=
  {| Channel := "C024BE91L"; MessageTimeStamp := "1355517523.000005";
     Links := the_links |}.

Definition parse_event (body : string) : result EventsAPIEvent :=
  if (substring 0 10 body =? "challenge=")%string then
    Ok {| Type_ := URLVerification;
          InnerEvent := {| InnerType := ""; Data := OtherData |} |}
  else if (body =? "link_shared")%string then
    Ok {| Type_ := CallbackEvent;
          InnerEvent := {| InnerType := LinkShared;
                           Data := LinkSharedData the_event |} |}
  else Err "parse: unexpected end of JSON input".

Definition unmarshal (body : string) : result (option ChallengeResponse) :=
  if (substring 0 10 body =? "challenge=")%string then
    Ok (Some {| Challenge := substring 10 (String.length body - 10) body |})
  else Err "json: cannot unmarshal".

#[export] Instance world : Collaborators := {|
  slackSigningSecret := "8f742231b10e";
  http_Header := option string * option string;
  write_error := fun _ => None;
  SecretsVerifier := string * string;
  NewSecretsVerifier := verifier;
  sv_Write := fun sv data => (fst sv, snd sv +:+ data);
  sv_Ensure := fun sv =>
    if (fst sv =? snd sv)%string then None
    else Some "Computed unexpected signature";
  ParseEvent := parse_event;
  json_Unmarshal := unmarshal;
  url_Parse := parse;
  URL_String := unparse;
  Page := page;
  TableView := string;
  Root_Title := title;
  Root_TableViews := views;
  Collection_GetName := fun name => name;
  ExtractNoDashIDFromNotionURL := fun s => s;
  ToMarkdown := markdown;
  World := nat;
  DownloadPage := fun pageID calls => (pages pageID, S calls);
  PostMessage := fun _ _ _ calls => (None, S calls)
|}.

Definition link (domain rawURL : string) : SharedLinks :=
  {| Domain := domain; URL := rawURL |}.

Definition event (links : list SharedLinks) : LinkSharedEvent :=
  {| Channel := "C024BE91L"; MessageTimeStamp := "1355517523.000005";
     Links := links |}.

Definition signed (body : string) : Request (option string * option string) :=
  {| Method := "POST";
     Header := (Some ("v0=8f742231b10e:1355517523:" +:+ body), Some "1355517523");
     Body := Ok body |}.

(** What [parse] makes of the first of [the_links]. *)
Definition roadmap_url : url.URL :=
  {| url.Scheme := ""; url.Opaque := ""; url.User := None; url.Host := "";
     url.Path := "https://x.notion.so/Roadmap-abc123"; url.RawPath := "";
     url.ForceQuery := false; url.RawQuery := "v=1";
     url.Fragment := ""; url.RawFragment := "" |}.

Definition roadmap_link : SharedLinks :=
  link "x.notion.so" "https://x.notion.so/Roadmap-abc123?v=1".

(** The same document linked twice, and a page elsewhere. *)
Definition twice : LinkSharedEvent :=
  event [roadmap_link; roadmap_link; link "example.com" "https://example.com/page"].

Definition untitled_link : SharedLinks :=
  link "x.notion.so" "https://x.notion.so/Untitled-0a0a0a".

Definition untitled_url : url.URL :=
  {| url.Scheme := ""; url.Opaque := ""; url.User := None; url.Host := "";
     url.Path := "https://x.notion.so/Untitled-0a0a0a"; url.RawPath := "";
     url.ForceQuery := false; url.RawQuery := "";
     url.Fragment := ""; url.RawFragment := "" |}.

Definition missing_link : SharedLinks :=
  link "x.notion.so" "https://x.notion.so/Gone-ffffff".

Definition missing_url : url.URL :=
  {| url.Scheme := ""; url.Opaque := ""; url.User := None; url.Host := "";
     url.Path := "https://x.notion.so/Gone-ffffff"; url.RawPath := "";
     url.ForceQuery := false; url.RawQuery := "";
     url.Fragment := ""; url.RawFragment := "" |}.

Definition forged : Request (option string * option string) :=
  {| Method := "POST";
     Header := (Some "v0=0000", Some "1355517523");
     Body := Ok "link_shared" |}.

(** 1001 times the two-byte letter e with acute accent, 2002 bytes. *)
Definition long_text : string := Utf8.string_of_runes (repeat 233%Z 1001).

End Demo.

(** ** A second world, in which things go wrong

    The small world with one more page, whose first table view has no name
    while its second has one, and with a Slack that refuses every post. *)

Module Rainy.

Definition blank : Demo.page :=
  {| Demo.title := ""; Demo.views := [""; "Archive"];
     Demo.markdown := "# " +:+ Demo.nl +:+ Demo.nl +:+ "rows" |}.

Definition shelf (pageID : string) : result Demo.page :=
  if (pageID =? "https://x.notion.so/Blank-1b1b1b")%string then Ok blank
  else Demo.pages pageID.

(** Two more bodies the event parser knows: a callback that is no shared
    link, and an event that is no callback. *)
Definition mention : EventsAPIEvent :=
  {| Type_ := CallbackEvent;
     InnerEvent := {| InnerType := "app_mention"; Data := OtherData |} |}.

Definition rate_limited : EventsAPIEvent :=
  {| Type_ := "app_rate_limited";
     InnerEvent := {| InnerType := ""; Data := OtherData |} |}.

Definition parse_more (body : string) : result EventsAPIEvent :=
  if (body =? "app_mention")%string then Ok mention
  else if (body =? "app_rate_limited")%string then Ok rate_limited
  else Demo.parse_event body.

Definition outage : Collaborators :=
  with_parsers
    (with_services Demo.world
       (fun pageID calls => (shelf pageID, S calls))
       (fun _ _ _ calls => (Some "channel_not_found", S calls)))
    parse_more Demo.unmarshal.

(** A GET with nothing to verify, and a POST spelled in lower case. *)
Definition probe : Request (option string * option string) :=
  {| Method := "GET"; Header := (None, None); Body := Err "unexpected EOF" |}.

Definition lower_case : Request (option string * option string) :=
  {| Method := "post";
     Header := (Some "v0=8f742231b10e:1355517523:link_shared", Some "1355517523");
     Body := Ok "link_shared" |}.

(** A POST whose body cannot be read. *)
Definition broken : Request (option string * option string) :=
  {| Method := "POST"; Header := (Some "v0=0000", Some "1355517523");
     Body := Err "unexpected EOF" |}.

Definition blank_link : SharedLinks :=
  Demo.link "x.notion.so" "https://x.notion.so/Blank-1b1b1b".

Definition blank_url : url.URL :=
  {| url.Scheme := ""; url.Opaque := ""; url.User := None; url.Host := "";
     url.Path := "https://x.notion.so/Blank-1b1b1b"; url.RawPath := "";
     url.ForceQuery := false; url.RawQuery := "";
     url.Fragment := ""; url.RawFragment := "" |}.

(** A process environment with the three tokens and no port. *)
Definition env : os.Environ :=
  {[ "NOTION_TOKEN" := "secret_n"; "SLACK_SIGNING_SECRET" := "8f742231b10e";
     "SLACK_TOKEN" := "xoxb-1" ]}.

End Rainy.

(** * Properties *)

(** ** Strings *)

Lemma str_app_nil_l (s : string) : "" +:+ s = s.
Proof. reflexivity. Qed.

Lemma str_app_cons (c : ascii) (s t : string) :
  String c s +:+ t = String c (s +:+ t).
Proof. reflexivity. Qed.

Lemma str_app_assoc (s t u : string) : (s +:+ t) +:+ u = s +:+ t +:+ u.
Proof.
  induction s as [|c s IH]; [reflexivity|]. by rewrite !str_app_cons, IH.
Qed.

Lemma str_length_app (s t : string) :
  String.length (s +:+ t) = String.length s + String.length t.
Proof.
  induction s as [|c s IH]; [reflexivity|]. rewrite str_app_cons. simpl. by rewrite IH.
Qed.

Lemma substring_all (s : string) : substring 0 (String.length s) s = s.
Proof. induction s as [|c s IH]; [reflexivity|]. simpl. by rewrite IH. Qed.

Lemma substring_skip (p s : string) (n : nat) :
  substring (String.length p) n (p +:+ s) = substring 0 n s.
Proof. induction p as [|c p IH]; [reflexivity|]. rewrite str_app_cons. simpl. apply IH. Qed.

Lemma substring_split (s : string) (n : nat) :
  n <= String.length s ->
  s = substring 0 n s +:+ substring n (String.length s - n) s.
Proof.
  revert n. induction s as [|c s IH]; intros [|n] Hn; simpl in *; try lia.
  - reflexivity.
  - by rewrite str_app_nil_l, substring_all.
  - rewrite str_app_cons. f_equal. apply IH. lia.
Qed.

(** [HasSuffix s suffix] holds exactly when [s] is some prefix followed by
    [suffix]. *)
Lemma HasSuffix_spec (s suffix : string) :
  GoStrings.HasSuffix s suffix = true <-> exists p, s = p +:+ suffix.
Proof.
  unfold GoStrings.HasSuffix. rewrite andb_true_iff, Nat.leb_le, String.eqb_eq.
  split.
  - intros [Hlen Hsub].
    exists (substring 0 (String.length s - String.length suffix) s).
    pose proof (substring_split s (String.length s - String.length suffix)) as Hs.
    replace (String.length s - (String.length s - String.length suffix))
      with (String.length suffix) in Hs by lia.
    rewrite Hsub in Hs. apply Hs. lia.
  - intros [p ->]. rewrite str_length_app. split; [lia|].
    replace (String.length p + String.length suffix - String.length suffix)
      with (String.length p) by lia.
    by rewrite substring_skip, substring_all.
Qed.

(** ** The loop of [unfurl] *)

Section UnfurlLoop.

Context {C : Collaborators}.

Implicit Types (link : SharedLinks) (w : World)
  (unfurls : gmap string slack.Attachment).

Ltac run_body :=
  unfold unfurl_link, resolution, bind, ret, emit, panic, downloadPage in *;
  simpl in *.

Lemma unfurl_link_skip unfurls link w :
  GoStrings.HasSuffix (Domain link) ".notion.so" = false ->
  unfurl_link unfurls link w = ret unfurls w.
Proof. intros Hd. run_body. by rewrite Hd. Qed.

(** The map handed to the loop body takes no part in what the body does: the
    body run on [unfurls] differs from the body run on the empty map only in
    the map it returns, which is [unfurls] with the link's entry, if any. *)
Lemma unfurl_link_frame unfurls link w :
  unfurl_link unfurls link w =
  {| outcome_of :=
       match outcome_of (unfurl_link ∅ link w) with
       | Returned _ =>
           Returned (match resolution link w with
                     | Some a => <[URL link := a]> unfurls
                     | None => unfurls
                     end)
       | Panicked msg => Panicked msg
       end;
     remote := remote (unfurl_link ∅ link w);
     effects := effects (unfurl_link ∅ link w) |}.
Proof.
  unfold resolution, unfurl_link.
  destruct (negb _); [by simpl; rewrite lookup_empty|].
  destruct (url_Parse _) as [u|err]; [|by simpl; rewrite lookup_empty].
  unfold bind, downloadPage, ret, emit, panic.
  destruct (DownloadPage _ w) as [[page|err] w']; cbn [outcome_of remote effects];
    [|by rewrite lookup_empty].
  destruct (Root_Title page =? "")%string;
    [destruct (Root_TableViews page) as [|view views];
       [done|destruct (Collection_GetName view =? "")%string]|];
    cbn [outcome_of remote effects];
    by rewrite ?lookup_insert_eq, ?lookup_empty.
Qed.

Lemma unfurl_link_no_post unfurls link w :
  posts (effects (unfurl_link unfurls link w)) = [].
Proof.
  unfold unfurl_link.
  destruct (negb _); [done|].
  destruct (url_Parse _) as [u|err]; [|done].
  unfold bind, downloadPage, ret, emit, panic.
  destruct (DownloadPage _ w) as [[page|err] w']; cbn [outcome_of remote effects];
    [|done].
  destruct (Root_Title page =? "")%string;
    [destruct (Root_TableViews page) as [|view views];
       [done|destruct (Collection_GetName view =? "")%string]|]; done.
Qed.

Lemma posts_app (es es' : list effect) : posts (es ++ es') = posts es ++ posts es'.
Proof. apply List.filter_app. Qed.

Lemma unfurl_links_cons link rest unfurls w :
  unfurl_links (link :: rest) unfurls w =
  bind (unfurl_link unfurls link) (unfurl_links rest) w.
Proof. reflexivity. Qed.

Lemma unfurl_links_no_post links unfurls w :
  posts (effects (unfurl_links links unfurls w)) = [].
Proof.
  revert unfurls w. induction links as [|link rest IH]; intros unfurls w; [done|].
  rewrite unfurl_links_cons. unfold bind.
  pose proof (unfurl_link_no_post unfurls link w) as Hb.
  destruct (outcome_of (unfurl_link unfurls link w)); cbn [effects]; [|done].
  by rewrite posts_app, Hb, IH.
Qed.

(** The loop, started on any map, does what it does started on the empty
    map, and where it returns it returns the map with the entries of the
    links that resolved inserted in order. *)
Lemma unfurl_links_frame links unfurls w :
  unfurl_links links unfurls w =
  {| outcome_of :=
       match outcome_of (unfurl_links links ∅ w) with
       | Returned _ => Returned (batch_from unfurls (resolved links w))
       | Panicked msg => Panicked msg
       end;
     remote := remote (unfurl_links links ∅ w);
     effects := effects (unfurl_links links ∅ w) |}.
Proof.
  revert unfurls w. induction links as [|link rest IH]; intros unfurls w; [done|].
  rewrite !unfurl_links_cons. unfold bind. cbn [resolved].
  rewrite (unfurl_link_frame unfurls link w). cbn [outcome_of remote effects].
  destruct (outcome_of (unfurl_link ∅ link w)) as [m0|msg];
    cbn [outcome_of remote effects]; [|done].
  rewrite (IH (match resolution link w with
               | Some a => <[URL link:=a]> unfurls | None => unfurls end)).
  rewrite (IH m0). cbn [outcome_of remote effects].
  destruct (outcome_of (unfurl_links rest ∅ _)); [|done].
  by destruct (resolution link w).
Qed.

Lemma unfurl_links_returned links w unfurls :
  outcome_of (unfurl_links links ∅ w) = Returned unfurls ->
  unfurls = batch_from ∅ (resolved links w).
Proof.
  intros Hr. rewrite unfurl_links_frame in Hr. cbn [outcome_of] in Hr.
  destruct (outcome_of (unfurl_links links ∅ w)); by simplify_eq.
Qed.

(** What [unfurl] does after the loop. *)
Lemma unfurl_after_loop ev w :
  match outcome_of (unfurl_links (Links ev) ∅ w) with
  | Panicked msg =>
      outcome_of (unfurl ev w) = Panicked msg /\ posts (effects (unfurl ev w)) = []
  | Returned unfurls =>
      outcome_of (unfurl ev w) = Returned tt /\
      posts (effects (unfurl ev w)) =
        if (size unfurls =? 0)%nat then []
        else [PostUnfurl (Channel ev) (MessageTimeStamp ev) unfurls]
  end.
Proof.
  unfold unfurl, bind.
  pose proof (unfurl_links_no_post (Links ev) ∅ w) as Hl.
  destruct (outcome_of (unfurl_links (Links ev) ∅ w)) as [unfurls|msg];
    cbn [outcome_of effects]; [|done].
  destruct (size unfurls =? 0)%nat; cbn [outcome_of effects ret].
  - by rewrite List.app_nil_r.
  - unfold postMessage.
    destruct (PostMessage _ _ _ _) as [[err|] w']; cbn [outcome_of effects remote];
      rewrite !posts_app, Hl; done.
Qed.

Lemma dom_batch_from unfurls rs :
  dom (batch_from unfurls rs) = list_to_set rs.*1 ∪ dom unfurls.
Proof.
  revert unfurls. induction rs as [|[k a] rs IH]; intros unfurls; simpl.
  - by rewrite (left_id_L ∅ (∪)).
  - change (batch_from unfurls ((k, a) :: rs))
      with (batch_from (<[k:=a]> unfurls) rs).
    rewrite IH, dom_insert_L, !(assoc_L (∪)).
    by rewrite (comm_L (∪) (list_to_set rs.*1) {[k]}).
Qed.

Lemma lookup_batch_from unfurls rs k a :
  batch_from unfurls rs !! k = Some a ->
  (k, a) ∈ rs \/ unfurls !! k = Some a.
Proof.
  revert unfurls. induction rs as [|[k' a'] rs IH]; intros unfurls Hk; [by right|].
  change (batch_from unfurls ((k', a') :: rs))
    with (batch_from (<[k':=a']> unfurls) rs) in Hk.
  destruct (IH _ Hk) as [Hin|Hl]; [left; by right|].
  destruct (decide (k' = k)) as [->|Hne].
  - rewrite lookup_insert_eq in Hl. simplify_eq. left. by left.
  - rewrite lookup_insert_ne in Hl by done. by right.
Qed.

(** The map the loop builds gives each key the last entry inserted for it. *)
Lemma batch_from_last unfurls (rs : list (string * slack.Attachment)) (k : string) :
  batch_from unfurls rs !! k =
  match last_entry rs k with
  | Some a => Some a
  | None => unfurls !! k
  end.
Proof.
  revert unfurls. induction rs as [|[k' a'] rs IH]; intros unfurls; [done|].
  change (batch_from unfurls ((k', a') :: rs))
    with (batch_from (<[k':=a']> unfurls) rs).
  rewrite IH. unfold last_entry. cbn [List.filter fst].
  destruct (String.eqb_spec k' k) as [->|Hne].
  - destruct (List.filter _ rs) as [|e l] eqn:Hf.
    + cbn. by rewrite lookup_insert_eq.
    + change (last ((k, a') :: e :: l)) with (last (e :: l)).
      pose proof (last_is_Some (e :: l)) as [_ Hs].
      destruct Hs as [x Hx]; [done|]. by rewrite Hx.
  - destruct (last (List.filter _ rs)); [done|]. cbn.
    by rewrite lookup_insert_ne.
Qed.

End UnfurlLoop.

(** ** The link resolver *)

Section LinkResolver.

Context {C : Collaborators}.

Implicit Types (link : SharedLinks) (w : World)
  (unfurls : gmap string slack.Attachment).

(** C10.  The domain filter passes a link only if its domain is some prefix
    followed by [.notion.so], dot included: a link whose domain is not of that
    form is passed over with no effect and no change to the batch; this holds
    for the bare domain [notion.so] and, the comparison being on bytes, for a
    domain that differs in case only. *)
Theorem domain_filter_needs_dot_notion_so :
  (forall unfurls link w,
     ~ (exists p, Domain link = p +:+ ".notion.so") ->
     unfurl_link unfurls link w = ret unfurls w) /\
  (forall unfurls rawURL w,
     unfurl_link unfurls {| Domain := "notion.so"; URL := rawURL |} w
     = ret unfurls w) /\
  (forall unfurls rawURL w,
     unfurl_link unfurls {| Domain := "WWW.NOTION.SO"; URL := rawURL |} w
     = ret unfurls w) /\
  (forall link w a,
     resolution link w = Some a -> exists p, Domain link = p +:+ ".notion.so").
Proof.
  split; [|split; [|split]].
  - intros unfurls link w Hp. apply unfurl_link_skip.
    destruct (GoStrings.HasSuffix _ _) eqn:Hs; [|done].
    by apply HasSuffix_spec in Hs.
  - intros. by apply unfurl_link_skip.
  - intros. by apply unfurl_link_skip.
  - intros link w a Hr. apply HasSuffix_spec.
    destruct (GoStrings.HasSuffix _ _) eqn:Hs; [done|].
    unfold resolution in Hr. rewrite (unfurl_link_skip _ _ _ Hs) in Hr.
    unfold ret in Hr. cbn [outcome_of] in Hr. by rewrite lookup_empty in Hr.
Qed.

(** C8.  A link of a matching domain whose URL parses, whose document is
    fetched and has a usable title, is fetched under the identifier extracted
    from the URL with [RawQuery] and [Fragment] emptied, and its entry is
    inserted under the URL as the event gave it; every entry the loop body
    inserts comes about this way; a link whose domain does not match leaves the
    batch as it was. *)
Theorem entry_keyed_by_original_url :
  (forall unfurls link w u page w' title,
     GoStrings.HasSuffix (Domain link) ".notion.so" = true ->
     url_Parse (URL link) = Ok u ->
     let normalized := url.set_Fragment (url.set_RawQuery u "") "" in
     let pageID := ExtractNoDashIDFromNotionURL (URL_String normalized) in
     DownloadPage pageID w = (Ok page, w') ->
     usable_title page title ->
     url.RawQuery normalized = "" /\ url.Fragment normalized = "" /\
     unfurl_link unfurls link w =
       {| outcome_of :=
            Returned (<[URL link := {| slack.Title := title;
                                       slack.TitleLink := URL link;
                                       slack.Footer := "Notion";
                                       slack.Text := get_text page |}]> unfurls);
          remote := w';
          effects := [Download pageID; Println title] |}) /\
  (forall link w a,
     resolution link w = Some a ->
     exists u page w' title,
       GoStrings.HasSuffix (Domain link) ".notion.so" = true /\
       url_Parse (URL link) = Ok u /\
       DownloadPage
         (ExtractNoDashIDFromNotionURL
            (URL_String (url.set_Fragment (url.set_RawQuery u "") ""))) w
         = (Ok page, w') /\
       usable_title page title /\
       a = {| slack.Title := title; slack.TitleLink := URL link;
              slack.Footer := "Notion"; slack.Text := get_text page |}) /\
  (forall unfurls link w,
     GoStrings.HasSuffix (Domain link) ".notion.so" = false ->
     outcome_of (unfurl_link unfurls link w) = Returned unfurls).
Proof.
  split; [|split].
  - intros unfurls link w u page w' title Hd Hu normalized pageID Hp [Hne Ht].
    split; [done|split; [done|]].
    unfold unfurl_link. rewrite Hd, Hu. cbn [negb].
    unfold bind, downloadPage, ret, emit, panic.
    fold normalized. fold pageID. rewrite Hp. cbn [outcome_of remote effects].
    apply String.eqb_neq in Hne.
    destruct Ht as [Ht|(Ht & view & views & Hv & Hn)].
    + rewrite Ht, Hne. done.
    + rewrite Ht, Hv, Hn, Hne. done.
  - intros link w a. unfold resolution, unfurl_link.
    unfold bind, downloadPage, ret, emit, panic.
    destruct (GoStrings.HasSuffix _ _) eqn:Hd; cbn [negb];
      [|by cbn [outcome_of]; rewrite lookup_empty].
    destruct (url_Parse _) as [u|err] eqn:Hu;
      [|by cbn [outcome_of]; rewrite lookup_empty].
    destruct (DownloadPage _ w) as [[page|err] w'] eqn:Hp;
      cbn [outcome_of remote effects]; [|by rewrite lookup_empty].
    destruct (Root_Title page =? "")%string eqn:Ht.
    + apply String.eqb_eq in Ht.
      destruct (Root_TableViews page) as [|view views] eqn:Hv; [done|].
      destruct (Collection_GetName view =? "")%string eqn:Hn;
        cbn [outcome_of remote effects]; [by rewrite lookup_empty|].
      rewrite lookup_insert_eq. intros [= <-].
      exists u, page, w', (Collection_GetName view).
      apply String.eqb_neq in Hn.
      do 3 (split; [done|]). split; [|done].
      split; [done|]. right. split; [done|]. by exists view, views.
    + cbn [outcome_of remote effects]. rewrite lookup_insert_eq. intros [= <-].
      exists u, page, w', (Root_Title page).
      apply String.eqb_neq in Ht.
      do 3 (split; [done|]). split; [|done].
      split; [done|]. by left.
  - intros unfurls link w Hd. by rewrite unfurl_link_skip.
Qed.

(** C9.  A link whose URL does not parse, or whose document cannot be
    fetched, costs the loop one log line (and, for the fetch, the call): the
    loop goes on with the links that follow, on the same batch. *)
Theorem failed_link_is_logged_and_skipped :
  (forall link rest unfurls w err,
     GoStrings.HasSuffix (Domain link) ".notion.so" = true ->
     url_Parse (URL link) = Err err ->
     unfurl_links (link :: rest) unfurls w =
       after [Log err] (unfurl_links rest unfurls w)) /\
  (forall link rest unfurls w u err w',
     GoStrings.HasSuffix (Domain link) ".notion.so" = true ->
     url_Parse (URL link) = Ok u ->
     let pageID := ExtractNoDashIDFromNotionURL
                     (URL_String (url.set_Fragment (url.set_RawQuery u "") "")) in
     DownloadPage pageID w = (Err err, w') ->
     unfurl_links (link :: rest) unfurls w =
       after [Download pageID; Log err] (unfurl_links rest unfurls w')).
Proof.
  split.
  - intros link rest unfurls w err Hd Hu.
    rewrite unfurl_links_cons. unfold bind at 1, unfurl_link.
    rewrite Hd, Hu. cbn [negb]. unfold bind, emit, ret, after.
    cbn [outcome_of remote effects]. by rewrite List.app_nil_r.
  - intros link rest unfurls w u err w' Hd Hu pageID Hp.
    rewrite unfurl_links_cons. unfold bind at 1, unfurl_link.
    rewrite Hd, Hu. cbn [negb]. unfold bind, downloadPage, emit, ret, after.
    fold pageID. rewrite Hp. cbn [outcome_of remote effects].
    by rewrite List.app_nil_r.
Qed.

(** C2 (the code departs from it).  A document with an empty title and no
    table view makes the loop body panic on [TableViews[0]]: the link is not
    skipped, the task dies. *)
Theorem empty_title_without_view_panics unfurls link w u page w' :
  GoStrings.HasSuffix (Domain link) ".notion.so" = true ->
  url_Parse (URL link) = Ok u ->
  DownloadPage
    (ExtractNoDashIDFromNotionURL
       (URL_String (url.set_Fragment (url.set_RawQuery u "") ""))) w
    = (Ok page, w') ->
  Root_Title page = "" ->
  Root_TableViews page = [] ->
  outcome_of (unfurl_link unfurls link w)
    = Panicked "runtime error: index out of range [0] with length 0" /\
  forall rest ev,
    Links ev = link :: rest ->
    outcome_of (unfurl ev w)
      = Panicked "runtime error: index out of range [0] with length 0".
Proof.
  intros Hd Hu Hp Ht Hv.
  assert (forall m, outcome_of (unfurl_link m link w)
    = Panicked "runtime error: index out of range [0] with length 0") as Hpanic.
  { intros m. unfold unfurl_link. rewrite Hd, Hu. cbn [negb].
    unfold bind, downloadPage, ret, emit, panic. rewrite Hp.
    cbn [outcome_of remote effects]. by rewrite Ht, Hv. }
  split; [apply Hpanic|].
  intros rest ev Hl. unfold unfurl. unfold bind at 1.
  rewrite Hl, unfurl_links_cons. unfold bind at 1 2. by rewrite Hpanic.
Qed.

End LinkResolver.

(** ** The unfurl aggregator *)

Section Aggregator.

Context {C : Collaborators}.

Implicit Types (ev : LinkSharedEvent) (w : World).

Lemma unfurl_links_all_skipped links unfurls w :
  Forall (fun link => GoStrings.HasSuffix (Domain link) ".notion.so" = false) links ->
  unfurl_links links unfurls w = ret unfurls w.
Proof.
  induction 1 as [|link rest Hd _ IH]; [done|].
  rewrite unfurl_links_cons. unfold bind.
  rewrite (unfurl_link_skip _ _ _ Hd). unfold ret.
  cbn [outcome_of remote effects]. rewrite IH. by unfold ret.
Qed.

(** C3.  An event none of whose links resolves is answered by no post; one
    none of whose links has a matching domain is answered by nothing at all,
    and the task returns. *)
Theorem no_resolution_no_post :
  (forall ev w,
     resolved (Links ev) w = [] -> posts (effects (unfurl ev w)) = []) /\
  (forall ev w,
     Forall (fun link => GoStrings.HasSuffix (Domain link) ".notion.so" = false)
            (Links ev) ->
     unfurl ev w = ret tt w).
Proof.
  split.
  - intros ev w Hr. pose proof (unfurl_after_loop ev w) as Ha.
    destruct (outcome_of (unfurl_links (Links ev) ∅ w)) as [unfurls|msg] eqn:Ho;
      [|by destruct Ha].
    apply unfurl_links_returned in Ho. rewrite Hr in Ho. subst unfurls.
    destruct Ha as [_ Ha]. by rewrite Ha.
  - intros ev w Hs. unfold unfurl, bind.
    rewrite (unfurl_links_all_skipped _ _ _ Hs). unfold ret.
    cbn [outcome_of remote effects]. by rewrite map_size_empty.
Qed.

(** C4, amended.  When the task returns and at least one link resolved, there
    is exactly one post, for the channel and timestamp of the event, and its
    batch is the entries of the resolved links inserted in order: its keys are
    the URLs of the resolved links, every entry in it is the entry of a
    resolved link, and it has as many entries as links resolved when their
    URLs are pairwise distinct (never more); where resolved links share a URL
    the batch holds the entry of the last of them. *)
Theorem one_post_with_the_resolved_entries ev w :
  outcome_of (unfurl ev w) = Returned tt ->
  resolved (Links ev) w <> [] ->
  exists batch,
    posts (effects (unfurl ev w)) =
      [PostUnfurl (Channel ev) (MessageTimeStamp ev) batch] /\
    dom batch = list_to_set (resolved (Links ev) w).*1 /\
    (forall k a, batch !! k = Some a -> (k, a) ∈ resolved (Links ev) w) /\
    size batch <= length (resolved (Links ev) w) /\
    (NoDup (resolved (Links ev) w).*1 ->
     size batch = length (resolved (Links ev) w)) /\
    (forall k, batch !! k = last_entry (resolved (Links ev) w) k).
Proof.
  intros Hret Hne. pose proof (unfurl_after_loop ev w) as Ha.
  destruct (outcome_of (unfurl_links (Links ev) ∅ w)) as [unfurls|msg] eqn:Ho;
    [|destruct Ha as [Ha _]; congruence].
  apply unfurl_links_returned in Ho. destruct Ha as [_ Ha].
  set (rs := resolved (Links ev) w) in *.
  assert (dom unfurls = list_to_set rs.*1) as Hdom.
  { rewrite Ho, dom_batch_from, dom_empty_L. by rewrite (right_id_L ∅ (∪)). }
  assert (size unfurls = size (list_to_set rs.*1 : gset string)) as Hsize.
  { by rewrite <- Hdom, size_dom. }
  exists unfurls. split; [|split; [done|split; [|split; [|split]]]].
  - rewrite Ha. destruct (size unfurls =? 0)%nat eqn:Hz; [|done].
    apply Nat.eqb_eq in Hz. rewrite Hsize in Hz. apply size_empty_inv in Hz.
    destruct rs as [|[k a] rs']; [done|].
    exfalso. apply (not_elem_of_empty (C:=gset string) k). rewrite <- Hz.
    rewrite fmap_cons, list_to_set_cons. apply elem_of_union_l.
    by apply elem_of_singleton.
  - intros k a Hk. rewrite Ho in Hk.
    apply lookup_batch_from in Hk as [Hk|Hk]; [done|].
    by rewrite lookup_empty in Hk.
  - rewrite Hsize, <- (length_fmap fst rs).
    generalize (rs.*1). intros l. induction l as [|k l IH]; [done|].
    rewrite list_to_set_cons, size_union_alt, size_singleton.
    pose proof (subseteq_size (list_to_set l ∖ {[k]}) (list_to_set l : gset string))
      as Hsub.
    simpl. specialize (Hsub ltac:(apply subseteq_difference_l; reflexivity)). lia.
  - intros Hnd. rewrite Hsize, size_list_to_set by done. by rewrite length_fmap.
  - intros k. rewrite Ho, batch_from_last, lookup_empty. by destruct (last_entry _ _).
Qed.

End Aggregator.

(** ** The handler *)

Section Handler.

Context {C : Collaborators}.

Implicit Types (r : Request http_Header) (w : World).

Lemma post_is_not_get r :
  Method r = "POST" -> (Method r =? "GET")%string = false.
Proof. intros ->. reflexivity. Qed.

Lemma post_is_post r :
  Method r = "POST" -> (Method r =? "POST")%string = true.
Proof. intros ->. reflexivity. Qed.

(** C1.  A POST whose signature check fails (the verifier cannot be built
    from the headers, or the signature does not match the body) is answered
    with status 400 and an empty body; one line is logged and nothing else
    happens: no task is started, no call goes out, and the event parser has no
    part in the outcome. *)
Theorem bad_signature_is_rejected r payload err :
  Method r = "POST" ->
  Body r = Ok payload ->
  signature_error (Header r) payload = Some err ->
  index r = done (WriteHeader newResponseWriter StatusBadRequest) [Log err] /\
  status (response (index r)) = 400 /\
  body (response (index r)) = "" /\
  List.filter is_go (handler_effects (index r)) = [] /\
  (forall w, outbound_calls r w = []) /\
  (forall parseEvent unmarshal,
     @index (with_parsers C parseEvent unmarshal) r = index r).
Proof.
  intros Hm Hb Hsig.
  assert (forall parseEvent unmarshal,
    @index (with_parsers C parseEvent unmarshal) r
    = done (WriteHeader newResponseWriter StatusBadRequest) [Log err]) as Hany.
  { intros parseEvent unmarshal. unfold index, signature_error in *.
    cbn [with_parsers http_Header NewSecretsVerifier slackSigningSecret
         sv_Ensure sv_Write SecretsVerifier].
    rewrite (post_is_not_get _ Hm), (post_is_post _ Hm), Hb.
    destruct (NewSecretsVerifier (Header r) slackSigningSecret) as [sv|e].
    - by rewrite Hsig.
    - by simplify_eq. }
  assert (index r = done (WriteHeader newResponseWriter StatusBadRequest) [Log err])
    as Hi.
  { unfold index, signature_error in *.
    rewrite (post_is_not_get _ Hm), (post_is_post _ Hm), Hb.
    destruct (NewSecretsVerifier (Header r) slackSigningSecret) as [sv|e].
    - by rewrite Hsig.
    - by simplify_eq. }
  split; [done|]. unfold outbound_calls. rewrite Hi.
  repeat split; done.
Qed.

(** C5.  A POST that passes the signature check and parses as a
    URL-verification event whose body decodes to a challenge is answered with
    status 200 and content type [text/plain]; no task is started and no call
    goes out; and when the connection takes the write, the body of the
    response is the challenge, byte for byte, and nothing is logged. *)
Theorem challenge_is_echoed r payload ev res :
  Method r = "POST" ->
  Body r = Ok payload ->
  signature_error (Header r) payload = None ->
  ParseEvent payload = Ok ev ->
  Type_ ev = URLVerification ->
  json_Unmarshal payload = Ok (Some res) ->
  status (response (index r)) = 200 /\
  header (response (index r)) !! "Content-Type" = Some "text/plain" /\
  handler_outcome (index r) = Returned tt /\
  List.filter is_go (handler_effects (index r)) = [] /\
  (forall w, outbound_calls r w = []) /\
  (write_error (Challenge res) = None ->
   index r = done {| wroteHeader := Some 200;
                     header := {[ "Content-Type" := "text/plain" ]};
                     body := Challenge res |} []).
Proof.
  intros Hm Hb Hsig Hp Ht Hj.
  unfold outbound_calls, index, signature_error in *.
  rewrite (post_is_not_get _ Hm), (post_is_post _ Hm), Hb.
  destruct (NewSecretsVerifier (Header r) slackSigningSecret) as [sv|e];
    [|done].
  rewrite Hsig, Hp, Ht, Hj.
  change (URLVerification =? URLVerification)%string with true. cbv iota.
  unfold Write, Header_Set, WriteHeader, newResponseWriter.
  cbn [wroteHeader header body].
  destruct (write_error (Challenge res)) as [e|];
    cbn [wroteHeader header body response handler_effects handler_outcome done
         status default spawned_effects List.filter is_go is_outbound];
    rewrite ?lookup_insert_eq; done.
Qed.

End Handler.

(** ** The lines of the preview *)

Lemma get_text_lines_cons (i : nat) (line : string) (rest lines : list string) :
  get_text_lines i (line :: rest) lines =
  let lines' := if negb (i =? 0)%nat && negb (i =? 1)%nat
                then lines ++ [line] else lines in
  if (num_lines <=? length lines')%nat then lines'
  else get_text_lines (S i) rest lines'.
Proof. reflexivity. Qed.

Lemma get_text_lines_from_2 (pieces lines : list string) (i : nat) :
  2 <= i -> length lines < num_lines ->
  get_text_lines i pieces lines = take num_lines (lines ++ pieces).
Proof.
  revert lines i. induction pieces as [|line rest IH]; intros lines i Hi Hlen.
  - cbn [get_text_lines]. rewrite List.app_nil_r. symmetry. apply take_ge. lia.
  - rewrite get_text_lines_cons. destruct i as [|[|i]]; try lia.
    change (negb (S (S i) =? 0)%nat && negb (S (S i) =? 1)%nat) with true.
    cbv zeta iota.
    destruct (num_lines <=? length (lines ++ [line]))%nat eqn:Hfull.
    + apply Nat.leb_le in Hfull. rewrite length_app in Hfull.
      cbn [length] in Hfull.
      rewrite (cons_middle line lines rest), (assoc_L (++)).
      rewrite take_app_le by (rewrite length_app; cbn [length]; lia).
      symmetry. apply take_ge. rewrite length_app. cbn [length]. lia.
    + apply Nat.leb_gt in Hfull.
      rewrite IH by (done || lia).
      by rewrite <- (assoc_L (++)).
Qed.

(** The loop of [get_text] keeps the pieces from the third on, [num_lines]
    of them at most. *)
Lemma get_text_lines_spec (pieces : list string) :
  get_text_lines 0 pieces [] = take num_lines (drop 2 pieces).
Proof.
  destruct pieces as [|l0 [|l1 rest]]; [done..|].
  change (get_text_lines 0 (l0 :: l1 :: rest) [])
    with (get_text_lines 2 rest []).
  by rewrite get_text_lines_from_2 by (unfold num_lines; cbn [length]; lia).
Qed.

Lemma Split_no_sep (s : string) (c : ascii) :
  has_byte c s = false -> GoStrings.Split s c = [s].
Proof.
  induction s as [|a s IH]; [done|]. simpl. intros Hb.
  apply orb_false_iff in Hb as [Ha Hb]. by rewrite Ha, (IH Hb).
Qed.

Lemma Split_line (s t : string) (c : ascii) :
  has_byte c s = false ->
  GoStrings.Split (s +:+ String c t) c = s :: GoStrings.Split t c.
Proof.
  induction s as [|a s IH]; intros Hb.
  - rewrite str_app_nil_l. simpl. by rewrite Ascii.eqb_refl.
  - simpl in Hb. apply orb_false_iff in Hb as [Ha Hb].
    rewrite str_app_cons. simpl. by rewrite Ha, (IH Hb).
Qed.

(** Splitting the join of lines that hold no line feed gives the lines back. *)
Lemma Split_Join (ls : list string) :
  ls <> [] -> Forall (fun l => has_byte LF l = false) ls ->
  GoStrings.Split (GoStrings.Join ls newline) LF = ls.
Proof.
  induction ls as [|l ls IH]; [done|]. intros _ Hls.
  apply Forall_cons in Hls as [Hl Hls].
  destruct ls as [|l' ls]; [by apply Split_no_sep|].
  change (GoStrings.Join (l :: l' :: ls) newline)
    with (l +:+ String LF (GoStrings.Join (l' :: ls) newline)).
  by rewrite Split_line, IH.
Qed.

Lemma count_byte_app (c : ascii) (s t : string) :
  count_byte c (s +:+ t) = count_byte c s + count_byte c t.
Proof.
  induction s as [|a s IH]; [done|]. rewrite str_app_cons.
  cbn [count_byte]. rewrite IH. lia.
Qed.

Lemma count_byte_has (c : ascii) (s : string) :
  has_byte c s = false <-> count_byte c s = 0.
Proof.
  induction s as [|a s IH]; [done|]. cbn [has_byte count_byte].
  rewrite orb_false_iff, IH. destruct (Ascii.eqb a c); split; (lia || done || tauto).
Qed.

Lemma Split_length (s : string) (c : ascii) :
  length (GoStrings.Split s c) = S (count_byte c s) /\
  Forall (fun piece => has_byte c piece = false) (GoStrings.Split s c).
Proof.
  induction s as [|a s [IHl IHf]]; [by repeat constructor|].
  cbn [GoStrings.Split count_byte]. destruct (Ascii.eqb a c) eqn:Ha.
  - split; [cbn [length]; lia|]. by constructor.
  - destruct (GoStrings.Split s c) as [|piece pieces]; [done|].
    cbn [length] in *. split; [lia|].
    apply Forall_cons in IHf as [Hp Hps]. constructor; [|done].
    cbn [has_byte]. by rewrite Ha.
Qed.

Lemma Join_cons (c : ascii) (piece : string) (pieces : list string) (sep : string) :
  GoStrings.Join (String c piece :: pieces) sep
  = String c (GoStrings.Join (piece :: pieces) sep).
Proof. by destruct pieces. Qed.

(** Joining the pieces of a string with the separator gives the string back. *)
Lemma Join_Split (s : string) (c : ascii) :
  GoStrings.Join (GoStrings.Split s c) (String c EmptyString) = s.
Proof.
  induction s as [|a s IH]; [done|]. cbn [GoStrings.Split].
  destruct (Ascii.eqb_spec a c) as [->|Hne].
  - destruct (GoStrings.Split s c) as [|piece pieces] eqn:Hs.
    + pose proof (proj1 (Split_length s c)) as Hl. by rewrite Hs in Hl.
    + change (GoStrings.Join ("" :: piece :: pieces) (String c ""))
        with (String c (GoStrings.Join (piece :: pieces) (String c ""))).
      by rewrite IH.
  - destruct (GoStrings.Split s c) as [|piece pieces] eqn:Hs.
    + pose proof (proj1 (Split_length s c)) as Hl. by rewrite Hs in Hl.
    + by rewrite Join_cons, IH.
Qed.

Lemma Split_app (s t : string) (c : ascii) :
  GoStrings.Split (s +:+ String c t) c
  = (GoStrings.Split s c ++ GoStrings.Split t c)%list.
Proof.
  induction s as [|a s IH].
  - rewrite str_app_nil_l. cbn [GoStrings.Split]. by rewrite Ascii.eqb_refl.
  - rewrite str_app_cons. cbn [GoStrings.Split]. rewrite IH.
    destruct (Ascii.eqb a c); [done|].
    destruct (GoStrings.Split s c) as [|piece pieces] eqn:Hs; [|done].
    pose proof (proj1 (Split_length s c)) as Hl. by rewrite Hs in Hl.
Qed.

(** C7.  The text [get_text] cuts to [max_chars] runes is the join, with line
    feeds, of the pieces of the markdown from the third on, 25 of them at
    most, empty ones included; so two documents whose markdown differs in the
    first two lines only have the same preview.  Spelled out on the bytes of
    the markdown: after two lines [l0] and [l1], whatever they hold, a text
    of at most 25 lines (fewer than 25 line feeds, empty lines counted) is
    the text that is cut, line feeds and all; and of a longer text it is the
    first 25 lines, up to the 25th line feed, which is left out with
    what follows it. *)
Theorem preview_skips_two_lines_keeps_25 :
  (forall md,
     text_of_markdown md =
     truncate (GoStrings.Join (take 25 (drop 2 (GoStrings.Split md LF))) newline)) /\
  (forall (C : Collaborators) (page : Page),
     get_text page =
     truncate (GoStrings.Join
                 (take 25 (drop 2 (GoStrings.Split (ToMarkdown page) LF)))
                 newline)) /\
  (forall l0 l1 l0' l1' rest,
     Forall (fun l => has_byte LF l = false) (l0 :: l1 :: l0' :: l1' :: rest) ->
     text_of_markdown (GoStrings.Join (l0 :: l1 :: rest) newline) =
     text_of_markdown (GoStrings.Join (l0' :: l1' :: rest) newline) /\
     text_of_markdown (GoStrings.Join (l0 :: l1 :: rest) newline) =
     truncate (GoStrings.Join (take 25 rest) newline)) /\
  (forall l0 l1 body,
     has_byte LF l0 = false -> has_byte LF l1 = false ->
     count_byte LF body < 25 ->
     text_of_markdown (l0 +:+ newline +:+ l1 +:+ newline +:+ body)
     = truncate body) /\
  (forall l0 l1 kept more,
     has_byte LF l0 = false -> has_byte LF l1 = false ->
     count_byte LF kept = 24 ->
     text_of_markdown
       (l0 +:+ newline +:+ l1 +:+ newline +:+ kept +:+ newline +:+ more)
     = truncate kept).
Proof.
  assert (forall md,
     text_of_markdown md =
     truncate (GoStrings.Join (take 25 (drop 2 (GoStrings.Split md LF))) newline))
    as Hmd.
  { intros md. unfold text_of_markdown, truncate. by rewrite get_text_lines_spec. }
  assert (forall l0 l1 body,
     has_byte LF l0 = false -> has_byte LF l1 = false ->
     GoStrings.Split (l0 +:+ newline +:+ l1 +:+ newline +:+ body) LF
     = l0 :: l1 :: GoStrings.Split body LF) as Hsplit.
  { intros l0 l1 body H0 H1. unfold newline.
    by rewrite !str_app_cons, !str_app_nil_l, !Split_line. }
  split; [done|split; [intros; apply Hmd|split; [|split]]].
  - intros l0 l1 l0' l1' rest Hls. rewrite !Hmd.
    apply Forall_cons in Hls as [H0 Hls]. apply Forall_cons in Hls as [H1 Hls].
    apply Forall_cons in Hls as [H0' Hls]. apply Forall_cons in Hls as [H1' Hls].
    rewrite !Split_Join by (done || by repeat apply Forall_cons_2). done.
  - intros l0 l1 body H0 H1 Hc. rewrite Hmd, Hsplit by done.
    change (drop 2 (l0 :: l1 :: ?l)) with l.
    pose proof (proj1 (Split_length body LF)) as Hlen.
    rewrite take_ge by lia. unfold newline. by rewrite Join_Split.
  - intros l0 l1 kept more H0 H1 Hc. rewrite Hmd, Hsplit by done.
    change (drop 2 (l0 :: l1 :: ?l)) with l.
    unfold newline at 1. rewrite str_app_cons, str_app_nil_l, Split_app.
    pose proof (proj1 (Split_length kept LF)) as Hlen.
    rewrite take_app_length' by lia. unfold newline. by rewrite Join_Split.
Qed.

(** ** UTF-8 *)

Section Utf8Arith.

Import Utf8.
Local Open Scope Z_scope.

Lemma byte_val_range (c : ascii) : 0 <= byte_val c < 256.
Proof.
  unfold byte_val. pose proof (N_ascii_bounded c). lia.
Qed.

Lemma byte_of_val (c : ascii) : byte_of (byte_val c) = c.
Proof. unfold byte_of, byte_val. by rewrite N2Z.id, ascii_N_embedding. Qed.

(** Bits that do not overlap add up. *)
Lemma lor_disjoint (a b k : Z) :
  0 <= k -> a mod 2 ^ k = 0 -> 0 <= b < 2 ^ k -> Z.lor a b = a + b.
Proof.
  intros Hk Ha Hb. rewrite <- Z.add_lor_land.
  assert (Z.land a b = 0) as ->; [|lia].
  rewrite <- (Z.mod_small b (2 ^ k)) by lia.
  rewrite <- (Z.land_ones b k), (Z.land_comm b), Z.land_assoc by lia.
  by rewrite Z.land_ones, Ha, Z.land_0_l by lia.
Qed.

Lemma land_maskx (x : Z) : Z.land x maskx = x mod 64.
Proof. change maskx with (Z.ones 6). by rewrite Z.land_ones by lia. Qed.
Lemma land_mask2 (x : Z) : Z.land x mask2 = x mod 32.
Proof. change mask2 with (Z.ones 5). by rewrite Z.land_ones by lia. Qed.
Lemma land_mask3 (x : Z) : Z.land x mask3 = x mod 16.
Proof. change mask3 with (Z.ones 4). by rewrite Z.land_ones by lia. Qed.
Lemma land_mask4 (x : Z) : Z.land x mask4 = x mod 8.
Proof. change mask4 with (Z.ones 3). by rewrite Z.land_ones by lia. Qed.

Lemma lor_tx (x : Z) : 0 <= x < 64 -> Z.lor tx x = 128 + x.
Proof. intros. by apply (lor_disjoint 128 x 6). Qed.
Lemma lor_t2 (x : Z) : 0 <= x < 32 -> Z.lor t2 x = 192 + x.
Proof. intros. by apply (lor_disjoint 192 x 5). Qed.
Lemma lor_t3 (x : Z) : 0 <= x < 16 -> Z.lor t3 x = 224 + x.
Proof. intros. by apply (lor_disjoint 224 x 4). Qed.
Lemma lor_t4 (x : Z) : 0 <= x < 8 -> Z.lor t4 x = 240 + x.
Proof. intros. by apply (lor_disjoint 240 x 3). Qed.

Lemma rune2_arith (s0 s1 : Z) : rune2 s0 s1 = s0 mod 32 * 64 + s1 mod 64.
Proof.
  unfold rune2. rewrite land_mask2, land_maskx, Z.shiftl_mul_pow2 by lia.
  apply (lor_disjoint _ _ 6); [lia| |].
  - change (2 ^ 6) with 64. by rewrite Z.mod_mul.
  - change (2 ^ 6) with 64. apply Z.mod_pos_bound. lia.
Qed.

Lemma rune3_arith (s0 s1 s2 : Z) :
  rune3 s0 s1 s2 = s0 mod 16 * 4096 + s1 mod 64 * 64 + s2 mod 64.
Proof.
  unfold rune3.
  rewrite land_mask3, !land_maskx, !Z.shiftl_mul_pow2 by lia.
  change (2 ^ 12) with 4096. change (2 ^ 6) with 64.
  pose proof (Z.mod_pos_bound s1 64). pose proof (Z.mod_pos_bound s2 64).
  rewrite (lor_disjoint (s0 mod 16 * 4096) _ 12); [|lia| |].
  - apply (lor_disjoint _ _ 6); [lia| |].
    + change (2 ^ 6) with 64.
      replace (s0 mod 16 * 4096 + s1 mod 64 * 64)
        with ((s0 mod 16 * 64 + s1 mod 64) * 64) by lia.
      by rewrite Z.mod_mul.
    + change (2 ^ 6) with 64. lia.
  - change (2 ^ 12) with 4096. by rewrite Z.mod_mul.
  - change (2 ^ 12) with 4096. lia.
Qed.

Lemma rune4_arith (s0 s1 s2 s3 : Z) :
  rune4 s0 s1 s2 s3 =
  s0 mod 8 * 262144 + s1 mod 64 * 4096 + s2 mod 64 * 64 + s3 mod 64.
Proof.
  unfold rune4.
  rewrite land_mask4, !land_maskx, !Z.shiftl_mul_pow2 by lia.
  change (2 ^ 18) with 262144. change (2 ^ 12) with 4096. change (2 ^ 6) with 64.
  pose proof (Z.mod_pos_bound s1 64). pose proof (Z.mod_pos_bound s2 64).
  pose proof (Z.mod_pos_bound s3 64).
  rewrite (lor_disjoint (s0 mod 8 * 262144) _ 18); [|lia| |].
  - rewrite (lor_disjoint _ (s2 mod 64 * 64) 12); [|lia| |].
    + apply (lor_disjoint _ _ 6); [lia| |].
      * change (2 ^ 6) with 64.
        replace (s0 mod 8 * 262144 + s1 mod 64 * 4096 + s2 mod 64 * 64)
          with ((s0 mod 8 * 4096 + s1 mod 64 * 64 + s2 mod 64) * 64) by lia.
        by rewrite Z.mod_mul.
      * change (2 ^ 6) with 64. lia.
    + change (2 ^ 12) with 4096.
      replace (s0 mod 8 * 262144 + s1 mod 64 * 4096)
        with ((s0 mod 8 * 64 + s1 mod 64) * 4096) by lia.
      by rewrite Z.mod_mul.
    + change (2 ^ 12) with 4096. lia.
  - change (2 ^ 18) with 262144. by rewrite Z.mod_mul.
  - change (2 ^ 18) with 262144. lia.
Qed.

End Utf8Arith.

Section Utf8Encode.

Import Utf8.
Local Open Scope Z_scope.

Ltac bytes c := pose proof (byte_val_range c).

Ltac dlia := Z.to_euclidean_division_equations; lia.

Ltac pick_case :=
  repeat match goal with
  | |- context [(?a <=? ?b)] =>
      destruct (Z.leb_spec a b); try lia; cbn [orb andb]
  | |- context [(?a <? ?b)] =>
      destruct (Z.ltb_spec a b); try lia; cbn [orb andb]
  end.

Lemma encode_rune1 (c0 : ascii) :
  byte_val c0 < 0x80 -> EncodeRune (byte_val c0) = String c0 EmptyString.
Proof.
  intros H0. bytes c0. unfold EncodeRune.
  rewrite Z.mod_small by lia. unfold rune1Max. pick_case.
  by rewrite byte_of_val.
Qed.

Lemma encode_rune2 (c0 c1 : ascii) :
  0xC2 <= byte_val c0 <= 0xDF ->
  0x80 <= byte_val c1 <= 0xBF ->
  EncodeRune (rune2 (byte_val c0) (byte_val c1))
  = String c0 (String c1 EmptyString).
Proof.
  intros H0 H1. rewrite rune2_arith.
  set (s0 := byte_val c0) in *. set (s1 := byte_val c1) in *.
  assert (s0 mod 32 = s0 - 192) as -> by dlia.
  assert (s1 mod 64 = s1 - 128) as -> by dlia.
  set (r := (s0 - 192) * 64 + (s1 - 128)).
  assert (0x80 <= r <= 0x7FF) as Hr by (unfold r; dlia).
  unfold EncodeRune. rewrite (Z.mod_small r) by lia.
  unfold rune1Max, rune2Max. pick_case.
  rewrite land_maskx, Z.shiftr_div_pow2 by lia. change (2 ^ 6) with 64.
  assert (r / 64 = s0 - 192) as Hq by (unfold r; dlia).
  assert (r mod 256 mod 64 = s1 - 128) as Hm by (unfold r; dlia).
  rewrite Hq, Hm, Z.mod_small, lor_t2, lor_tx by lia.
  replace (192 + (s0 - 192)) with s0 by lia.
  replace (128 + (s1 - 128)) with s1 by lia.
  unfold s0, s1. by rewrite !byte_of_val.
Qed.

Lemma encode_rune3 (c0 c1 c2 : ascii) :
  0xE0 <= byte_val c0 <= 0xEF ->
  0x80 <= byte_val c1 <= 0xBF ->
  (byte_val c0 = 0xE0 -> 0xA0 <= byte_val c1) ->
  (byte_val c0 = 0xED -> byte_val c1 <= 0x9F) ->
  0x80 <= byte_val c2 <= 0xBF ->
  EncodeRune (rune3 (byte_val c0) (byte_val c1) (byte_val c2))
  = String c0 (String c1 (String c2 EmptyString)).
Proof.
  intros H0 H1 Hlo Hhi H2. rewrite rune3_arith.
  set (s0 := byte_val c0) in *. set (s1 := byte_val c1) in *.
  set (s2 := byte_val c2) in *.
  assert (s0 mod 16 = s0 - 224) as -> by dlia.
  assert (s1 mod 64 = s1 - 128) as -> by dlia.
  assert (s2 mod 64 = s2 - 128) as -> by dlia.
  set (r := (s0 - 224) * 4096 + (s1 - 128) * 64 + (s2 - 128)).
  assert (0x800 <= r <= 0xFFFF) as Hr by (unfold r; dlia).
  assert (~ (0xD800 <= r <= 0xDFFF)) as Hs by (unfold r; dlia).
  unfold EncodeRune. rewrite (Z.mod_small r) by lia.
  unfold rune1Max, rune2Max, rune3Max, MaxRune, surrogateMin, surrogateMax.
  pick_case.
  all: unfold encode3;
    rewrite !land_maskx, !Z.shiftr_div_pow2 by lia;
    change (2 ^ 6) with 64; change (2 ^ 12) with 4096;
    assert (r / 4096 = s0 - 224) as Hq by (unfold r; dlia);
    assert (r / 64 mod 256 mod 64 = s1 - 128) as Hm1 by (unfold r; dlia);
    assert (r mod 256 mod 64 = s2 - 128) as Hm2 by (unfold r; dlia);
    rewrite Hq, Hm1, Hm2, Z.mod_small, lor_t3, !lor_tx by lia;
    replace (224 + (s0 - 224)) with s0 by lia;
    replace (128 + (s1 - 128)) with s1 by lia;
    replace (128 + (s2 - 128)) with s2 by lia;
    unfold s0, s1, s2; by rewrite !byte_of_val.
Qed.

Lemma encode_rune4 (c0 c1 c2 c3 : ascii) :
  0xF0 <= byte_val c0 <= 0xF4 ->
  0x80 <= byte_val c1 <= 0xBF ->
  (byte_val c0 = 0xF0 -> 0x90 <= byte_val c1) ->
  (byte_val c0 = 0xF4 -> byte_val c1 <= 0x8F) ->
  0x80 <= byte_val c2 <= 0xBF ->
  0x80 <= byte_val c3 <= 0xBF ->
  EncodeRune (rune4 (byte_val c0) (byte_val c1) (byte_val c2) (byte_val c3))
  = String c0 (String c1 (String c2 (String c3 EmptyString))).
Proof.
  intros H0 H1 Hlo Hhi H2 H3. rewrite rune4_arith.
  set (s0 := byte_val c0) in *. set (s1 := byte_val c1) in *.
  set (s2 := byte_val c2) in *. set (s3 := byte_val c3) in *.
  assert (s0 mod 8 = s0 - 240) as -> by dlia.
  assert (s1 mod 64 = s1 - 128) as -> by dlia.
  assert (s2 mod 64 = s2 - 128) as -> by dlia.
  assert (s3 mod 64 = s3 - 128) as -> by dlia.
  set (r := (s0 - 240) * 262144 + (s1 - 128) * 4096 + (s2 - 128) * 64 + (s3 - 128)).
  assert (0x10000 <= r <= 0x10FFFF) as Hr by (unfold r; dlia).
  unfold EncodeRune. rewrite (Z.mod_small r) by lia.
  unfold rune1Max, rune2Max, rune3Max, MaxRune, surrogateMin, surrogateMax.
  pick_case.
  all: rewrite !land_maskx, !Z.shiftr_div_pow2 by lia;
    change (2 ^ 6) with 64; change (2 ^ 12) with 4096;
    change (2 ^ 18) with 262144;
    assert (r / 262144 = s0 - 240) as Hq by (unfold r; dlia);
    assert (r / 4096 mod 256 mod 64 = s1 - 128) as Hm1 by (unfold r; dlia);
    assert (r / 64 mod 256 mod 64 = s2 - 128) as Hm2 by (unfold r; dlia);
    assert (r mod 256 mod 64 = s3 - 128) as Hm3 by (unfold r; dlia);
    rewrite Hq, Hm1, Hm2, Hm3, Z.mod_small, lor_t4, !lor_tx by lia;
    replace (240 + (s0 - 240)) with s0 by lia;
    replace (128 + (s1 - 128)) with s1 by lia;
    replace (128 + (s2 - 128)) with s2 by lia;
    replace (128 + (s3 - 128)) with s3 by lia;
    unfold s0, s1, s2, s3; by rewrite !byte_of_val.
Qed.

End Utf8Encode.

Section Utf8Decode.

Import Utf8.
Local Open Scope Z_scope.

Ltac bytes c := pose proof (byte_val_range c).

Ltac split_cases :=
  repeat match goal with
  | |- context [(?a =? ?b)] => destruct (Z.eqb_spec a b); cbn [orb andb]
  | |- context [(?a <? ?b)] => destruct (Z.ltb_spec a b); cbn [orb andb]
  end.

Lemma first_2 (s0 : Z) :
  0xC2 <= s0 <= 0xDF -> first s0 = Some (2%nat, locb, hicb).
Proof. intros. unfold first. split_cases; done || lia. Qed.

Lemma first_3 (s0 : Z) :
  0xE0 <= s0 <= 0xEF ->
  exists lo hi, first s0 = Some (3%nat, lo, hi) /\
    lo = (if s0 =? 0xE0 then 0xA0 else locb) /\
    hi = (if s0 =? 0xED then 0x9F else hicb).
Proof.
  intros. unfold first. split_cases; try lia; eexists _, _; done.
Qed.

Lemma first_4 (s0 : Z) :
  0xF0 <= s0 <= 0xF4 ->
  exists lo hi, first s0 = Some (4%nat, lo, hi) /\
    lo = (if s0 =? 0xF0 then 0x90 else locb) /\
    hi = (if s0 =? 0xF4 then 0x8F else hicb).
Proof.
  intros. unfold first. split_cases; try lia; eexists _, _; done.
Qed.

Lemma decode_rune1 (c0 : ascii) (rest : string) :
  byte_val c0 < 0x80 ->
  DecodeRuneInString (String c0 rest) = (byte_val c0, 1%nat).
Proof. intros. unfold DecodeRuneInString. split_cases; done || lia. Qed.

Lemma decode_rune2 (c0 c1 : ascii) (rest : string) :
  seq2 (byte_val c0) (byte_val c1) ->
  DecodeRuneInString (String c0 (String c1 rest))
  = (rune2 (byte_val c0) (byte_val c1), 2%nat).
Proof.
  intros [H0 H1]. unfold DecodeRuneInString.
  destruct (Z.ltb_spec (byte_val c0) 0x80); [lia|].
  rewrite (first_2 _ H0). cbn [String.length Nat.ltb Nat.leb].
  unfold locb, hicb. split_cases; try lia. done.
Qed.

Lemma decode_rune3 (c0 c1 c2 : ascii) (rest : string) :
  seq3 (byte_val c0) (byte_val c1) (byte_val c2) ->
  DecodeRuneInString (String c0 (String c1 (String c2 rest)))
  = (rune3 (byte_val c0) (byte_val c1) (byte_val c2), 3%nat).
Proof.
  intros (H0 & H1 & Hlo & Hhi & H2). unfold DecodeRuneInString.
  destruct (Z.ltb_spec (byte_val c0) 0x80); [lia|].
  destruct (first_3 _ H0) as (lo & hi & -> & -> & ->).
  cbn [String.length Nat.ltb Nat.leb].
  unfold locb, hicb. split_cases; try lia; done.
Qed.

Lemma decode_rune4 (c0 c1 c2 c3 : ascii) (rest : string) :
  seq4 (byte_val c0) (byte_val c1) (byte_val c2) (byte_val c3) ->
  DecodeRuneInString (String c0 (String c1 (String c2 (String c3 rest))))
  = (rune4 (byte_val c0) (byte_val c1) (byte_val c2) (byte_val c3), 4%nat).
Proof.
  intros (H0 & H1 & Hlo & Hhi & H2 & H3). unfold DecodeRuneInString.
  destruct (Z.ltb_spec (byte_val c0) 0x80); [lia|].
  destruct (first_4 _ H0) as (lo & hi & -> & -> & ->).
  cbn [String.length Nat.ltb Nat.leb].
  unfold locb, hicb. split_cases; try lia; done.
Qed.

(** Every decoding step is one of five: an ill-formed byte, an ASCII byte, or
    a well-formed sequence of two, three or four bytes. *)
Lemma decode_cases (c0 : ascii) (t : string) :
  DecodeRuneInString (String c0 t) = (RuneError, 1%nat) \/
  byte_val c0 < 0x80 \/
  (exists c1 t1, t = String c1 t1 /\ seq2 (byte_val c0) (byte_val c1)) \/
  (exists c1 c2 t2, t = String c1 (String c2 t2) /\
     seq3 (byte_val c0) (byte_val c1) (byte_val c2)) \/
  (exists c1 c2 c3 t3, t = String c1 (String c2 (String c3 t3)) /\
     seq4 (byte_val c0) (byte_val c1) (byte_val c2) (byte_val c3)).
Proof.
  bytes c0.
  destruct (Z.ltb_spec (byte_val c0) 0x80) as [Hlt|Hge]; [by right; left|].
  destruct (decide (byte_val c0 < 0xC2 \/ 0xF4 < byte_val c0)) as [Hbad|Hok].
  { left. unfold DecodeRuneInString, first. split_cases; done || lia. }
  destruct t as [|c1 t1].
  { left. unfold DecodeRuneInString, first.
    split_cases; try done; try lia. }
  bytes c1.
  destruct (decide (byte_val c0 <= 0xDF)) as [H2|H2].
  { destruct (decide (0x80 <= byte_val c1 <= 0xBF)) as [Hc|Hc].
    - right; right; left. exists c1, t1. split; [done|]. unfold seq2. lia.
    - left. unfold DecodeRuneInString. rewrite (first_2 (byte_val c0)) by lia.
      cbn [String.length Nat.ltb Nat.leb]. unfold locb, hicb.
      split_cases; done || lia. }
  destruct (decide (byte_val c0 <= 0xEF)) as [H3|H3].
  { destruct (first_3 (byte_val c0)) as (lo & hi & Hf & Hlo & Hhi); [lia|].
    destruct t1 as [|c2 t2].
    { left. unfold DecodeRuneInString. rewrite Hf.
      cbn [String.length Nat.ltb Nat.leb]. split_cases; done || lia. }
    bytes c2.
    destruct (decide (lo <= byte_val c1 <= hi /\ 0x80 <= byte_val c2 <= 0xBF))
      as [Hc|Hc].
    - right; right; right; left. exists c1, c2, t2. split; [done|].
      unfold seq3. subst lo hi. unfold locb, hicb in Hc.
      repeat match goal with
      | H : context [(?a =? ?b)] |- _ => destruct (Z.eqb_spec a b)
      end; lia.
    - left. unfold DecodeRuneInString. rewrite Hf.
      cbn [String.length Nat.ltb Nat.leb]. unfold locb, hicb.
      split_cases; done || lia. }
  destruct (first_4 (byte_val c0)) as (lo & hi & Hf & Hlo & Hhi); [lia|].
  destruct t1 as [|c2 [|c3 t3]].
  { left. unfold DecodeRuneInString. rewrite Hf.
    cbn [String.length Nat.ltb Nat.leb]. split_cases; done || lia. }
  { left. unfold DecodeRuneInString. rewrite Hf.
    cbn [String.length Nat.ltb Nat.leb]. split_cases; done || lia. }
  bytes c2. bytes c3.
  destruct (decide (lo <= byte_val c1 <= hi /\ 0x80 <= byte_val c2 <= 0xBF /\
                    0x80 <= byte_val c3 <= 0xBF)) as [Hc|Hc].
  - right; right; right; right. exists c1, c2, c3, t3. split; [done|].
    unfold seq4. subst lo hi. unfold locb, hicb in Hc.
    repeat match goal with
    | H : context [(?a =? ?b)] |- _ => destruct (Z.eqb_spec a b)
    end; lia.
  - left. unfold DecodeRuneInString. rewrite Hf.
    cbn [String.length Nat.ltb Nat.leb]. unfold locb, hicb.
    split_cases; done || lia.
Qed.

End Utf8Decode.

Section Utf8Strings.

Import Utf8.

Lemma sdrop_length (n : nat) (s : string) :
  String.length (sdrop n s) <= String.length s.
Proof.
  revert s. induction n as [|n IH]; intros [|c t]; cbn [sdrop String.length];
    try lia. specialize (IH t). lia.
Qed.

Lemma sdrop_app (s t : string) : sdrop (String.length s) (s +:+ t) = t.
Proof. induction s as [|c s IH]; [done|]. by rewrite str_app_cons. Qed.

Lemma runes_from_skip (k : nat) (s : string) :
  runes_from k s = runes_of_string (sdrop k s).
Proof.
  revert k. induction s as [|c t IH]; intros [|k]; try done.
  cbn [runes_from sdrop]. apply IH.
Qed.

Lemma valid_from_skip (k : nat) (s : string) :
  valid_from k s = ValidString (sdrop k s).
Proof.
  revert k. induction s as [|c t IH]; intros [|k]; try done.
  cbn [valid_from sdrop]. apply IH.
Qed.

Lemma runes_cons (c : ascii) (t : string) :
  runes_of_string (String c t) =
  (DecodeRuneInString (String c t)).1
  :: runes_of_string (sdrop ((DecodeRuneInString (String c t)).2 - 1) t).
Proof.
  unfold runes_of_string at 1. cbn [runes_from].
  destruct (DecodeRuneInString (String c t)) as [r size].
  by rewrite runes_from_skip.
Qed.

Lemma valid_cons (c : ascii) (t : string) :
  ValidString (String c t) =
  if ((DecodeRuneInString (String c t)).1 =? RuneError)%Z &&
     ((DecodeRuneInString (String c t)).2 =? 1)%nat
  then false
  else ValidString (sdrop ((DecodeRuneInString (String c t)).2 - 1) t).
Proof.
  unfold ValidString at 1. cbn [valid_from].
  destruct (DecodeRuneInString (String c t)) as [r size].
  by rewrite valid_from_skip.
Qed.

Lemma string_of_runes_app (rs rs' : list Z) :
  string_of_runes (rs ++ rs') = string_of_runes rs +:+ string_of_runes rs'.
Proof.
  induction rs as [|r rs IH]; [done|].
  cbn [app string_of_runes]. by rewrite IH, str_app_assoc.
Qed.

Lemma reads_back_RuneError : reads_back RuneError.
Proof.
  split; [|split].
  - intros rest. by vm_compute.
  - vm_compute. lia.
  - by vm_compute.
Qed.

(** One decoding step: the rune it gives reads back, and unless the step met
    an ill-formed byte, the string is the encoding of the rune followed by
    what the step leaves. *)
Lemma decode_step (c : ascii) (t : string) :
  let d := DecodeRuneInString (String c t) in
  reads_back d.1 /\
  (d = (RuneError, 1) \/
   String c t = EncodeRune d.1 +:+ sdrop (d.2 - 1) t /\
   ((d.1 =? RuneError)%Z && (d.2 =? 1)%nat = false)).
Proof.
  cbv zeta. unfold reads_back.
  destruct (decode_cases c t)
    as [He|[H1|[(c1 & t1 & -> & H2)|[(c1 & c2 & t2 & -> & H3)
       |(c1 & c2 & c3 & t3 & -> & H4)]]]].
  - rewrite He. split; [apply reads_back_RuneError|by left].
  - rewrite decode_rune1 by done. cbn [fst snd].
    assert ((byte_val c =? RuneError)%Z = false) as Hf.
    { apply Z.eqb_neq. unfold RuneError. lia. }
    rewrite !encode_rune1, Hf by done.
    split; [split; [|split]|right]; try done.
    intros rest. by apply decode_rune1.
  - rewrite decode_rune2 by done. cbn [fst snd]. destruct H2 as [H0 H2].
    rewrite !encode_rune2 by done. cbn [String.length Nat.eqb].
    rewrite andb_false_r.
    split; [split; [|split]|right]; try done; try lia.
    intros rest. by apply decode_rune2.
  - rewrite decode_rune3 by done. cbn [fst snd].
    destruct H3 as (H0 & H1 & Hlo & Hhi & H2).
    rewrite !encode_rune3 by done. cbn [String.length Nat.eqb].
    rewrite andb_false_r.
    split; [split; [|split]|right]; try done; try lia.
    intros rest. by apply decode_rune3.
  - rewrite decode_rune4 by done. cbn [fst snd].
    destruct H4 as (H0 & H1 & Hlo & Hhi & H2 & H3).
    rewrite !encode_rune4 by done. cbn [String.length Nat.eqb].
    rewrite andb_false_r.
    split; [split; [|split]|right]; try done; try lia.
    intros rest. by apply decode_rune4.
Qed.

(** Every rune [[]rune(s)] gives reads back. *)
Lemma runes_read_back (s : string) : Forall reads_back (runes_of_string s).
Proof.
  remember (String.length s) as n eqn:Hn.
  assert (String.length s <= n) as Hle by lia. clear Hn.
  revert s Hle. induction n as [|n IH]; intros [|c t] Hle;
    cbn [String.length] in Hle; try lia; try by constructor.
  rewrite runes_cons. constructor.
  - apply decode_step.
  - apply IH. pose proof (sdrop_length ((DecodeRuneInString (String c t)).2 - 1) t).
    lia.
Qed.

(** Runes that read back survive [[]rune(string(rs))], and [string(rs)] is
    well-formed UTF-8. *)
Lemma reads_back_roundtrip (rs : list Z) :
  Forall reads_back rs ->
  runes_of_string (string_of_runes rs) = rs /\
  ValidString (string_of_runes rs) = true.
Proof.
  induction 1 as [|r rs (Hd & Hlen & Hflag) _ [IHr IHv]]; [done|].
  cbn [string_of_runes].
  destruct (EncodeRune r) as [|c t'] eqn:He; [cbn in Hlen; lia|].
  specialize (Hd (string_of_runes rs)).
  rewrite str_app_cons in *. cbn [String.length] in *.
  rewrite runes_cons, valid_cons, Hd. cbn [fst snd]. rewrite Hflag.
  replace (S (String.length t') - 1) with (String.length t') by lia.
  rewrite sdrop_app. by rewrite IHr.
Qed.

(** Decoding and re-encoding well-formed UTF-8 gives the bytes back. *)
Lemma valid_roundtrip (s : string) :
  ValidString s = true -> string_of_runes (runes_of_string s) = s.
Proof.
  remember (String.length s) as n eqn:Hn.
  assert (String.length s <= n) as Hle by lia. clear Hn.
  revert s Hle. induction n as [|n IH]; intros [|c t] Hle Hv;
    cbn [String.length] in Hle; try lia; try done.
  rewrite valid_cons in Hv. rewrite runes_cons. cbn [string_of_runes].
  destruct (decode_step c t) as [_ [He|[Hs Hflag]]].
  - rewrite He in Hv. by vm_compute in Hv.
  - rewrite Hflag in Hv. rewrite IH; [by rewrite <- Hs| |done].
    pose proof (sdrop_length ((DecodeRuneInString (String c t)).2 - 1) t). lia.
Qed.

End Utf8Strings.

(** ** The cut of the preview *)

Lemma truncate_take (text : string) :
  truncate text
  = Utf8.string_of_runes (take max_chars (Utf8.runes_of_string text)).
Proof.
  unfold truncate.
  destruct (max_chars <=? length (Utf8.runes_of_string text))%nat eqn:Hlen;
    [done|].
  apply Nat.leb_gt in Hlen. by rewrite take_ge by lia.
Qed.

Lemma runes_truncate (text : string) :
  Utf8.runes_of_string (truncate text)
  = take max_chars (Utf8.runes_of_string text) /\
  Utf8.ValidString (truncate text) = true.
Proof.
  rewrite truncate_take. apply reads_back_roundtrip, Forall_take, runes_read_back.
Qed.

(** C6, amended.  [get_text] returns the extracted text cut by [truncate],
    and [truncate] works on code points: its result decodes to the first 1000
    code points of the text, exactly 1000 when the text has more, and is
    well-formed UTF-8, so no character is cut in two; a text of at most 1000
    code points keeps its code points, and keeps its bytes exactly when it is
    well-formed UTF-8 (an ill-formed byte is read as U+FFFD and written back
    as the three bytes of U+FFFD); of a well-formed text the result is a
    prefix. *)
Theorem preview_cut_at_1000_code_points :
  (forall md, text_of_markdown md = truncate (extracted_text md)) /\
  (forall (C : Collaborators) (page : Page),
     get_text page = truncate (extracted_text (ToMarkdown page))) /\
  (forall text,
     Utf8.runes_of_string (truncate text)
     = take 1000 (Utf8.runes_of_string text) /\
     Utf8.ValidString (truncate text) = true) /\
  (forall text,
     1000 < length (Utf8.runes_of_string text) ->
     length (Utf8.runes_of_string (truncate text)) = 1000) /\
  (forall text,
     length (Utf8.runes_of_string text) <= 1000 ->
     Utf8.runes_of_string (truncate text) = Utf8.runes_of_string text /\
     (Utf8.ValidString text = true <-> truncate text = text)) /\
  (forall text,
     Utf8.ValidString text = true -> exists rest, text = truncate text +:+ rest).
Proof.
  split; [done|split; [done|split; [apply runes_truncate|split; [|split]]]].
  - intros text Hlen. rewrite (proj1 (runes_truncate text)), length_take.
    unfold max_chars. lia.
  - intros text Hlen. split; [|split].
    + rewrite (proj1 (runes_truncate text)). apply take_ge.
      by unfold max_chars.
    + intros Hv. rewrite truncate_take, take_ge by by unfold max_chars.
      by apply valid_roundtrip.
    + intros Ht. rewrite <- Ht. apply runes_truncate.
  - intros text Hv.
    exists (Utf8.string_of_runes (drop max_chars (Utf8.runes_of_string text))).
    rewrite truncate_take, <- string_of_runes_app, take_drop.
    symmetry. by apply valid_roundtrip.
Qed.

(** ** The handler, branch by branch *)

Section Dispatch.

Context {C : Collaborators}.

Implicit Types (r : Request http_Header) (w : World).

Lemma index_verified r payload ev :
  verified_event r payload ev ->
  index r =
  let w := newResponseWriter in
  if (Type_ ev =? URLVerification)%string then
    match json_Unmarshal payload with
    | Err err => done (WriteHeader w StatusBadRequest) [Log err]
    | Ok None =>
        {| response := w; handler_effects := [];
           handler_outcome :=
             Panicked "runtime error: invalid memory address or nil pointer dereference" |}
    | Ok (Some res) =>
        let w := Header_Set w "Content-Type" "text/plain" in
        let '(w, err) := Write w (Challenge res) in
        match err with
        | Some err => done (WriteHeader w StatusBadRequest) [Log err]
        | None => done w []
        end
    end
  else if (Type_ ev =? CallbackEvent)%string then
    if negb (InnerType (InnerEvent ev) =? LinkShared)%string
    then done (Fprint w "ok") []
    else match Data (InnerEvent ev) with
    | LinkSharedData inEv => done (Fprint w "ok") [Go inEv]
    | OtherData => done (WriteHeader w StatusBadRequest) []
    end
  else done w [].
Proof.
  intros (Hm & Hb & Hsig & Hp). unfold index, signature_error in *.
  rewrite (post_is_not_get _ Hm), (post_is_post _ Hm), Hb.
  destruct (NewSecretsVerifier (Header r) slackSigningSecret) as [sv|e]; [|done].
  by rewrite Hsig, Hp.
Qed.

Lemma spawned_effects_no_go (es : list effect) w :
  List.filter is_go es = [] -> spawned_effects es w = [].
Proof.
  induction es as [|e es IH]; [done|]. destruct e; cbn; try done.
Qed.

Lemma Fprint_status (s : string) :
  status (Fprint newResponseWriter s) = 200 /\
  (write_error s = None -> body (Fprint newResponseWriter s) = s).
Proof.
  unfold Fprint, Write, WriteHeader, newResponseWriter, status.
  cbn [wroteHeader header body].
  destruct (write_error s); cbn [fst wroteHeader body default]; [done|].
  split; [done|]. intros _. reflexivity.
Qed.


Lemma http_Error_response (msg : string) (code : nat) :
  status (http_Error newResponseWriter msg code) = code /\
  header (http_Error newResponseWriter msg code) =
    <["X-Content-Type-Options" := "nosniff"]>
      (<["Content-Type" := "text/plain; charset=utf-8"]> ∅) /\
  (write_error (msg +:+ newline) = None ->
   body (http_Error newResponseWriter msg code) = msg +:+ newline).
Proof.
  unfold http_Error, Fprint, Write, WriteHeader, Header_Set, newResponseWriter,
    status.
  unfold newline, LF. cbn [wroteHeader header body].
  destruct (write_error _); cbn [fst wroteHeader header body default].
  - done.
  - done.
Qed.

(** X1.  A GET is answered with status 200 and the body [Hello] whatever its
    headers and body are: the body is not read, no signature is checked,
    nothing is logged and no task is started. *)
Theorem get_is_greeted_unchecked r :
  Method r = "GET" ->
  index r = done (Fprint newResponseWriter "Hello") [] /\
  status (response (index r)) = 200 /\
  (write_error "Hello" = None -> body (response (index r)) = "Hello") /\
  (forall w, outbound_calls r w = []).
Proof.
  intros Hm. unfold outbound_calls, index. rewrite Hm.
  change ("GET" =? "GET")%string with true. cbv iota.
  cbn [response handler_effects done spawned_effects List.filter].
  split; [done|]. split; [apply Fprint_status|]. split; [apply Fprint_status|done].
Qed.

(** X2.  A request whose method is neither [GET] nor [POST] (the comparison
    is on bytes, so [post] in lower case is such a method) is answered by
    [http.Error] with status 405: the two headers of a plain-text error, the
    body [method not allowed] and a line feed; nothing is logged and no task
    is started. *)
Theorem other_methods_are_refused r :
  Method r <> "GET" -> Method r <> "POST" ->
  index r =
    done (http_Error newResponseWriter "method not allowed" StatusMethodNotAllowed) [] /\
  status (response (index r)) = 405 /\
  header (response (index r)) !! "Content-Type" = Some "text/plain; charset=utf-8" /\
  header (response (index r)) !! "X-Content-Type-Options" = Some "nosniff" /\
  (write_error ("method not allowed" +:+ newline) = None ->
   body (response (index r)) = "method not allowed" +:+ newline) /\
  (forall w, outbound_calls r w = []).
Proof.
  intros Hg Hp. unfold outbound_calls, index.
  apply String.eqb_neq in Hg, Hp. rewrite Hg, Hp.
  cbn [response handler_effects done spawned_effects List.filter].
  destruct (http_Error_response "method not allowed" StatusMethodNotAllowed)
    as (Hs & Hh & Hb).
  split; [done|]. split; [done|]. rewrite Hh. repeat split; try done.
Qed.

Lemma statuses_of_served r (h : handled) :
  ~ (Method r <> "GET" /\ Method r <> "POST") ->
  status (response h) = 200 \/
    status (response h) = 400 /\ body (response h) = "" /\
    List.filter is_go (handler_effects h) = [] ->
  length (handler_effects h) <= 1 ->
  List.filter is_outbound (handler_effects h) = [] ->
  (status (response h) = 200 \/ status (response h) = 400 \/
   status (response h) = 405) /\
  (status (response h) = 405 <-> Method r <> "GET" /\ Method r <> "POST") /\
  (status (response h) = 400 ->
   body (response h) = "" /\ List.filter is_go (handler_effects h) = []) /\
  length (handler_effects h) <= 1 /\
  List.filter is_outbound (handler_effects h) = [].
Proof.
  intros Hm [Hs|(Hs & Hb & Hgo)] Hl Hout; rewrite Hs.
  - split; [by left|]. split; [split; [done|by intros H; destruct (Hm H)]|].
    split; [done|]. by split.
  - split; [by right; left|]. split; [split; [done|by intros H; destruct (Hm H)]|].
    split; [done|]. by split.
Qed.

(** X3.  Whenever the handler returns, the status is 200, 400 or 405; it is
    405 exactly for a method other than [GET] and [POST]; a response with
    status 400 has an empty body and comes with no task; the handler itself
    makes no outbound call and leaves at most one effect, a log line or the
    start of a task. *)
Theorem handler_statuses r :
  handler_outcome (index r) = Returned tt ->
  (status (response (index r)) = 200 \/ status (response (index r)) = 400 \/
   status (response (index r)) = 405) /\
  (status (response (index r)) = 405 <-> Method r <> "GET" /\ Method r <> "POST") /\
  (status (response (index r)) = 400 ->
   body (response (index r)) = "" /\
   List.filter is_go (handler_effects (index r)) = []) /\
  length (handler_effects (index r)) <= 1 /\
  List.filter is_outbound (handler_effects (index r)) = [].
Proof.
  unfold index.
  destruct (Method r =? "GET")%string eqn:Hg.
  { apply String.eqb_eq in Hg. intros _.
    apply statuses_of_served; cbn [response handler_effects done length List.filter];
      [by intros [] | left; apply Fprint_status | lia | done]. }
  destruct (Method r =? "POST")%string eqn:Hp.
  2:{ apply String.eqb_neq in Hg, Hp. intros _.
      cbn [response handler_effects done length List.filter].
      destruct (http_Error_response "method not allowed" StatusMethodNotAllowed)
        as (-> & _ & _).
      split; [by right; right|]. split; [done|]. split; [done|]. split; [lia|done]. }
  apply String.eqb_eq in Hp.
  assert (~ (Method r <> "GET" /\ Method r <> "POST")) as Hm by (by intros [_ []]).
  assert (forall es,
    List.filter is_go es = [] ->
    let h := done (WriteHeader newResponseWriter StatusBadRequest) es in
    status (response h) = 200 \/
      status (response h) = 400 /\ body (response h) = "" /\
      List.filter is_go (handler_effects h) = []) as H400.
  { intros es Hgo. by right. }
  destruct (Body r) as [payload|e];
    [|intros _; apply statuses_of_served; [done|by apply H400|cbn; lia|done]].
  destruct (NewSecretsVerifier _ _) as [sv|e];
    [|intros _; apply statuses_of_served; [done|by apply H400|cbn; lia|done]].
  destruct (sv_Ensure _) as [e|];
    [intros _; apply statuses_of_served; [done|by apply H400|cbn; lia|done]|].
  destruct (ParseEvent _) as [ev|e];
    [|intros _; apply statuses_of_served; [done|by apply H400|cbn; lia|done]].
  destruct (Type_ ev =? URLVerification)%string.
  { destruct (json_Unmarshal _) as [[res|]|e];
      [|done|intros _; apply statuses_of_served; [done|by apply H400|cbn; lia|done]].
    unfold Write, Header_Set, WriteHeader, newResponseWriter.
    cbn [wroteHeader header body].
    destruct (write_error _); intros _; cbn [wroteHeader header body];
      (apply statuses_of_served; [done|by left|cbn; lia|done]). }
  destruct (Type_ ev =? CallbackEvent)%string.
  { destruct (negb _).
    - intros _. apply statuses_of_served;
        [done|left; apply Fprint_status|cbn; lia|done].
    - destruct (Data _); intros _.
      + apply statuses_of_served; [done|left; apply Fprint_status|cbn; lia|done].
      + apply statuses_of_served; [done|by apply H400|cbn; lia|done]. }
  intros _. apply statuses_of_served; [done|by left|cbn; lia|done].
Qed.

Lemma spawned_effects_nonempty (es : list effect) w :
  spawned_effects es w <> [] -> exists inEv, Go inEv ∈ es.
Proof.
  induction es as [|e es IH]; [done|]. intros Hs.
  destruct e as [msg|s|pageID|channel ts unfurls|inEv];
    try (destruct (IH Hs) as [inEv Hin]; exists inEv; by right).
  exists inEv. by left.
Qed.

Lemma go_needs_verified_link_shared r inEv :
  Go inEv ∈ handler_effects (index r) ->
  exists payload ev,
    verified_event r payload ev /\
    Type_ ev = CallbackEvent /\
    InnerType (InnerEvent ev) = LinkShared /\
    Data (InnerEvent ev) = LinkSharedData inEv /\
    index r = done (Fprint newResponseWriter "ok") [Go inEv].
Proof.
  unfold verified_event, signature_error, index.
  destruct (Method r =? "GET")%string eqn:Hg;
    [by intros ?%elem_of_nil|].
  destruct (Method r =? "POST")%string eqn:Hp;
    [|by intros ?%elem_of_nil].
  apply String.eqb_eq in Hp.
  destruct (Body r) as [payload|e]; [|by intros ?%list_elem_of_singleton].
  destruct (NewSecretsVerifier _ _) as [sv|e];
    [|by intros ?%list_elem_of_singleton].
  destruct (sv_Ensure _) as [e|] eqn:He; [by intros ?%list_elem_of_singleton|].
  destruct (ParseEvent _) as [ev|e] eqn:Hev; [|by intros ?%list_elem_of_singleton].
  destruct (Type_ ev =? URLVerification)%string.
  { destruct (json_Unmarshal _) as [[res|]|e];
      [|by intros ?%elem_of_nil|by intros ?%list_elem_of_singleton].
    destruct (Write _ _) as [w' [e|]];
      [by intros ?%list_elem_of_singleton|by intros ?%elem_of_nil]. }
  destruct (Type_ ev =? CallbackEvent)%string eqn:Ht; [|by intros ?%elem_of_nil].
  apply String.eqb_eq in Ht.
  destruct (InnerType (InnerEvent ev) =? LinkShared)%string eqn:Hi;
    cbn [negb]; [|by intros ?%elem_of_nil].
  apply String.eqb_eq in Hi.
  destruct (Data (InnerEvent ev)) as [inEv'|] eqn:Hd; [|by intros ?%elem_of_nil].
  intros Hin%list_elem_of_singleton. simplify_eq.
  exists payload, ev. done.
Qed.

(** X4.  The handler starts a task only for a POST whose body was read,
    passed the signature check and parsed as an [event_callback] with a
    [link_shared] inner event carrying the event of the task; it is then the
    one effect of the handler, and the response is the acknowledgement.  So
    whenever a request causes a call to the document service or to Slack, it
    was such a request, and the calls are those of the one task. *)
Theorem task_only_for_verified_link_shared r :
  (forall inEv,
     Go inEv ∈ handler_effects (index r) ->
     exists payload ev,
       verified_event r payload ev /\
       Type_ ev = CallbackEvent /\
       InnerType (InnerEvent ev) = LinkShared /\
       Data (InnerEvent ev) = LinkSharedData inEv /\
       handler_effects (index r) = [Go inEv] /\
       status (response (index r)) = 200) /\
  (forall w,
     outbound_calls r w <> [] ->
     exists payload ev inEv,
       verified_event r payload ev /\
       Type_ ev = CallbackEvent /\
       InnerType (InnerEvent ev) = LinkShared /\
       Data (InnerEvent ev) = LinkSharedData inEv /\
       outbound_calls r w = List.filter is_outbound (effects (unfurl inEv w))).
Proof.
  split.
  - intros inEv Hin.
    destruct (go_needs_verified_link_shared r inEv Hin)
      as (payload & ev & Hv & Ht & Hi & Hd & ->).
    exists payload, ev. do 4 (split; [done|]). split; [done|].
    apply Fprint_status.
  - intros w Hout. unfold outbound_calls in *.
    destruct (spawned_effects_nonempty (handler_effects (index r)) w) as [inEv Hin].
    { intros Hs. by rewrite Hs in Hout. }
    destruct (go_needs_verified_link_shared r inEv Hin)
      as (payload & ev & Hv & Ht & Hi & Hd & ->).
    exists payload, ev, inEv. do 4 (split; [done|]).
    cbn [handler_effects done spawned_effects]. by rewrite List.app_nil_r.
Qed.

(** X5.  A verified [event_callback] whose inner event is a [link_shared]
    event is acknowledged with status 200 and the body [ok], and exactly one
    task is started, with that event; the response is written without waiting
    for the task, whose calls are all the outbound calls of the request. *)
Theorem link_shared_is_acknowledged_and_dispatched r payload ev inEv :
  verified_event r payload ev ->
  Type_ ev = CallbackEvent ->
  InnerType (InnerEvent ev) = LinkShared ->
  Data (InnerEvent ev) = LinkSharedData inEv ->
  index r = done (Fprint newResponseWriter "ok") [Go inEv] /\
  status (response (index r)) = 200 /\
  (write_error "ok" = None -> body (response (index r)) = "ok") /\
  (forall w,
     spawned_effects (handler_effects (index r)) w = effects (unfurl inEv w) /\
     outbound_calls r w = List.filter is_outbound (effects (unfurl inEv w))).
Proof.
  intros Hv Ht Hi Hd. unfold outbound_calls.
  rewrite (index_verified _ _ _ Hv), Ht, Hi, Hd. cbv zeta.
  change (CallbackEvent =? URLVerification)%string with false.
  change (CallbackEvent =? CallbackEvent)%string with true.
  change (LinkShared =? LinkShared)%string with true.
  cbn [negb response handler_effects done spawned_effects].
  split; [done|]. split; [apply Fprint_status|]. split; [apply Fprint_status|].
  intros w. by rewrite List.app_nil_r.
Qed.

(** X6.  A verified event the handler does not act on starts no task and
    causes no call: an [event_callback] with another inner type is
    acknowledged with [ok]; a [link_shared] inner event whose data is not a
    link-shared event gets status 400 without a log line; an event that is
    neither a URL verification nor a callback gets an empty response with
    status 200. *)
Theorem other_events_start_nothing r payload ev :
  verified_event r payload ev ->
  Type_ ev <> URLVerification ->
  (Type_ ev = CallbackEvent -> InnerType (InnerEvent ev) <> LinkShared ->
   index r = done (Fprint newResponseWriter "ok") []) /\
  (Type_ ev = CallbackEvent -> InnerType (InnerEvent ev) = LinkShared ->
   Data (InnerEvent ev) = OtherData ->
   index r = done (WriteHeader newResponseWriter StatusBadRequest) []) /\
  (Type_ ev <> CallbackEvent ->
   index r = done newResponseWriter [] /\
   status (response (index r)) = 200 /\ body (response (index r)) = "") /\
  ((forall inEv, Data (InnerEvent ev) <> LinkSharedData inEv) ->
   List.filter is_go (handler_effects (index r)) = [] /\
   forall w, outbound_calls r w = []).
Proof.
  intros Hv Hu. unfold outbound_calls. rewrite (index_verified _ _ _ Hv). cbv zeta.
  apply String.eqb_neq in Hu. rewrite Hu.
  split; [|split; [|split]].
  - intros Ht Hi. apply String.eqb_neq in Hi. rewrite Ht, Hi. done.
  - intros Ht Hi Hd. rewrite Ht, Hi, Hd. done.
  - intros Ht. apply String.eqb_neq in Ht. rewrite Ht. done.
  - intros Hd. destruct (Type_ ev =? CallbackEvent)%string; [|done].
    destruct (negb _); [done|].
    destruct (Data (InnerEvent ev)) as [inEv|] eqn:He; [by destruct (Hd inEv)|done].
Qed.

(** X7.  A POST whose body cannot be read, or whose verified body does not
    parse as an event, or parses as a URL verification but does not decode as
    one, is answered with status 400 and an empty body; the error is logged,
    no task is started and no call goes out. *)
Theorem unusable_body_is_rejected r :
  Method r = "POST" ->
  (forall err,
     Body r = Err err \/
     (exists payload,
        Body r = Ok payload /\ signature_error (Header r) payload = None /\
        ParseEvent payload = Err err) \/
     (exists payload ev,
        verified_event r payload ev /\ Type_ ev = URLVerification /\
        json_Unmarshal payload = Err err) ->
     index r = done (WriteHeader newResponseWriter StatusBadRequest) [Log err] /\
     status (response (index r)) = 400 /\
     body (response (index r)) = "" /\
     List.filter is_go (handler_effects (index r)) = [] /\
     forall w, outbound_calls r w = []).
Proof.
  intros Hm err Hcase.
  assert (index r = done (WriteHeader newResponseWriter StatusBadRequest) [Log err])
    as Hi.
  { destruct Hcase as [Hb|[(payload & Hb & Hsig & Hp)|(payload & ev & Hv & Ht & Hj)]].
    - unfold index. by rewrite (post_is_not_get _ Hm), (post_is_post _ Hm), Hb.
    - unfold index, signature_error in *.
      rewrite (post_is_not_get _ Hm), (post_is_post _ Hm), Hb.
      destruct (NewSecretsVerifier (Header r) slackSigningSecret) as [sv|e]; [|done].
      by rewrite Hsig, Hp.
    - rewrite (index_verified _ _ _ Hv), Ht, Hj. done. }
  unfold outbound_calls. rewrite Hi. done.
Qed.

End Dispatch.

(** ** The task, call by call *)

Section Task.

Context {C : Collaborators}.

Implicit Types (link : SharedLinks) (ev : LinkSharedEvent) (w : World)
  (unfurls : gmap string slack.Attachment).

Lemma unfurl_links_app (pre rest : list SharedLinks) unfurls w :
  unfurl_links (pre ++ rest) unfurls w =
  bind (unfurl_links pre unfurls) (unfurl_links rest) w.
Proof.
  revert unfurls w. induction pre as [|link pre IH]; intros unfurls w.
  - unfold bind, ret. cbn [app unfurl_links ret outcome_of remote effects].
    unfold ret. cbn [outcome_of remote effects].
    by destruct (unfurl_links rest unfurls w).
  - cbn [app unfurl_links]. unfold bind.
    destruct (outcome_of (unfurl_link unfurls link w)) as [m|msg] eqn:Ho;
      cbn [outcome_of remote effects]; [|done].
    rewrite IH. unfold bind.
    destruct (outcome_of (unfurl_links pre m _)); cbn [outcome_of remote effects];
      by rewrite ?(assoc_L (++)).
Qed.

Lemma unfurl_links_matching (links : list SharedLinks) unfurls w :
  unfurl_links links unfurls w = unfurl_links (List.filter matching links) unfurls w.
Proof.
  revert unfurls w. induction links as [|link rest IH]; intros unfurls w; [done|].
  cbn [List.filter]. destruct (matching link) eqn:Hm.
  - rewrite !unfurl_links_cons. unfold bind.
    destruct (outcome_of (unfurl_link unfurls link w)); [|done]. by rewrite IH.
  - rewrite unfurl_links_cons. unfold bind.
    rewrite (unfurl_link_skip _ _ _ Hm). unfold ret.
    cbn [outcome_of remote effects]. rewrite <- IH.
    by destruct (unfurl_links rest unfurls w).
Qed.

(** What the loop body leaves behind, case by case. *)
Lemma unfurl_link_effects unfurls link w :
  effects (unfurl_link unfurls link w) = [] \/
  (matching link = true /\
   ((exists err, effects (unfurl_link unfurls link w) = [Log err]) \/
    (exists pageID, effects (unfurl_link unfurls link w) = [Download pageID]) \/
    (exists pageID err,
       effects (unfurl_link unfurls link w) = [Download pageID; Log err]) \/
    (exists pageID title,
       effects (unfurl_link unfurls link w) = [Download pageID; Println title]))).
Proof.
  unfold unfurl_link, matching.
  destruct (GoStrings.HasSuffix _ _); cbn [negb]; [right; split; [done|]|by left].
  destruct (url_Parse _) as [u|err]; [|left; by exists err].
  unfold bind, downloadPage, ret, emit, panic.
  destruct (DownloadPage _ w) as [[page|err] w']; cbn [outcome_of remote effects];
    [|right; right; left; by eexists _, err].
  destruct (Root_Title page =? "")%string;
    [destruct (Root_TableViews page) as [|view views];
       [|destruct (Collection_GetName view =? "")%string]|];
    cbn [outcome_of remote effects app].
  - right; left. by eexists.
  - right; right; left. by eexists _, _.
  - right; right; right. by eexists _, _.
  - right; right; right. by eexists _, _.
Qed.

Lemma unfurl_link_budget unfurls link w :
  length (downloads (effects (unfurl_link unfurls link w)))
    <= (if matching link then 1 else 0) /\
  List.filter is_go (effects (unfurl_link unfurls link w)) = [].
Proof.
  destruct (unfurl_link_effects unfurls link w)
    as [->|[-> [[err ->]|[[pageID ->]|[(pageID & err & ->)|(pageID & title & ->)]]]]];
    cbn; split; (done || lia).
Qed.

Lemma unfurl_links_budget (links : list SharedLinks) unfurls w :
  length (downloads (effects (unfurl_links links unfurls w)))
    <= length (List.filter matching links) /\
  List.filter is_go (effects (unfurl_links links unfurls w)) = [].
Proof.
  revert unfurls w. induction links as [|link rest IH]; intros unfurls w.
  { cbn. split; [lia|done]. }
  rewrite unfurl_links_cons. unfold bind.
  destruct (unfurl_link_budget unfurls link w) as [Hd Hg].
  cbn [List.filter].
  assert (length (List.filter matching (link :: rest)) =
          (if matching link then 1 else 0) + length (List.filter matching rest))
    as Hlen by (cbn [List.filter]; by destruct (matching link)).
  cbn [List.filter] in Hlen. rewrite Hlen.
  destruct (outcome_of (unfurl_link unfurls link w)) as [m|msg];
    cbn [outcome_of remote effects].
  - destruct (IH m (remote (unfurl_link unfurls link w))) as [Hd' Hg'].
    unfold downloads in *. rewrite !List.filter_app, length_app, Hg, Hg'.
    split; [lia|done].
  - split; [lia|done].
Qed.

(** X8.  One event costs at most one call to Slack and at most one call to the
    document service for each link of a matching domain, and the task starts
    no further task. *)
Theorem unfurl_call_budget ev w :
  length (posts (effects (unfurl ev w))) <= 1 /\
  length (downloads (effects (unfurl ev w)))
    <= length (List.filter matching (Links ev)) /\
  length (List.filter matching (Links ev)) <= length (Links ev) /\
  List.filter is_go (effects (unfurl ev w)) = [].
Proof.
  split; [|split; [|split]].
  - pose proof (unfurl_after_loop ev w) as Ha.
    destruct (outcome_of (unfurl_links (Links ev) ∅ w)) as [unfurls|msg];
      destruct Ha as [_ ->]; [|cbn; lia].
    destruct (size unfurls =? 0)%nat; cbn; lia.
  - destruct (unfurl_links_budget (Links ev) ∅ w) as [Hd _].
    unfold unfurl, bind.
    destruct (outcome_of (unfurl_links (Links ev) ∅ w)) as [unfurls|msg];
      cbn [outcome_of remote effects]; [|done].
    destruct (size unfurls =? 0)%nat.
    + unfold ret. cbn [effects]. by rewrite List.app_nil_r.
    + unfold postMessage.
      destruct (PostMessage _ _ _ _) as [[err|] w']; cbn [outcome_of effects remote];
        unfold downloads in *; rewrite !List.filter_app, length_app; cbn; lia.
  - apply List.filter_length_le.
  - destruct (unfurl_links_budget (Links ev) ∅ w) as [_ Hg].
    unfold unfurl, bind.
    destruct (outcome_of (unfurl_links (Links ev) ∅ w)) as [unfurls|msg];
      cbn [outcome_of remote effects]; [|done].
    destruct (size unfurls =? 0)%nat.
    + unfold ret. cbn [effects]. by rewrite List.app_nil_r.
    + unfold postMessage.
      destruct (PostMessage _ _ _ _) as [[err|] w']; cbn [outcome_of effects remote];
        rewrite !List.filter_app, Hg; done.
Qed.

(** An entry the loop body inserts is made of a page it has fetched: the
    page [DownloadPage] returned, in the state of the world the body was run
    in, for the identifier of the link's URL. *)
Lemma resolution_fetch link w a :
  resolution link w = Some a ->
  exists u page w',
    matching link = true /\
    url_Parse (URL link) = Ok u /\
    DownloadPage
      (ExtractNoDashIDFromNotionURL
         (URL_String (url.set_Fragment (url.set_RawQuery u "") ""))) w
      = (Ok page, w') /\
    Download
      (ExtractNoDashIDFromNotionURL
         (URL_String (url.set_Fragment (url.set_RawQuery u "") "")))
      ∈ effects (unfurl_link ∅ link w) /\
    usable_title page (slack.Title a) /\
    slack.TitleLink a = URL link /\ slack.Footer a = "Notion" /\
    slack.Text a = get_text page.
Proof.
  unfold resolution, unfurl_link, matching.
  unfold bind, downloadPage, ret, emit, panic.
  destruct (GoStrings.HasSuffix _ _); cbn [negb];
    [|by cbn [outcome_of]; rewrite lookup_empty].
  destruct (url_Parse _) as [u|err];
    [|by cbn [outcome_of]; rewrite lookup_empty].
  destruct (DownloadPage _ w) as [[page|err] w'] eqn:Hp;
    cbn [outcome_of remote effects]; [|by rewrite lookup_empty].
  destruct (Root_Title page =? "")%string eqn:Ht.
  - apply String.eqb_eq in Ht.
    destruct (Root_TableViews page) as [|view views] eqn:Hv; [done|].
    destruct (Collection_GetName view =? "")%string eqn:Hn;
      cbn [outcome_of remote effects]; [by rewrite lookup_empty|].
    rewrite lookup_insert_eq. intros [= <-]. apply String.eqb_neq in Hn.
    exists u, page, w'. cbn [slack.Title slack.TitleLink slack.Footer slack.Text].
    do 3 (split; [done|]). split; [by left|]. split; [|done].
    split; [done|]. right. split; [done|]. by exists view, views.
  - cbn [outcome_of remote effects]. rewrite lookup_insert_eq. intros [= <-].
    apply String.eqb_neq in Ht.
    exists u, page, w'. cbn [slack.Title slack.TitleLink slack.Footer slack.Text].
    do 3 (split; [done|]). split; [by left|]. split; [|done].
    split; [done|]. by left.
Qed.

(** An entry among the resolved ones is the entry of a link of the list,
    resolved in the state of the world the loop has reached at that link. *)
Lemma resolved_at (links : list SharedLinks) w k a :
  (k, a) ∈ resolved links w ->
  exists pre link rest,
    links = pre ++ link :: rest /\ URL link = k /\
    (exists unfurls, outcome_of (unfurl_links pre ∅ w) = Returned unfurls) /\
    resolution link (remote (unfurl_links pre ∅ w)) = Some a.
Proof.
  revert w. induction links as [|link rest IH]; intros w; cbn [resolved].
  { by intros ?%elem_of_nil. }
  destruct (outcome_of (unfurl_link ∅ link w)) as [m0|msg] eqn:Ho;
    [|by intros ?%elem_of_nil].
  intros [Hin|Hin]%elem_of_app.
  - destruct (resolution link w) as [a'|] eqn:Hr; [|by apply elem_of_nil in Hin].
    apply list_elem_of_singleton in Hin. simplify_eq.
    exists [], link, rest. split; [done|]. split; [done|].
    split; [by exists ∅|done].
  - destruct (IH _ Hin) as (pre & link' & rest' & -> & Hk & [m Hm] & Hr).
    exists (link :: pre), link', rest'. split; [done|]. split; [done|].
    rewrite unfurl_links_cons. unfold bind. rewrite Ho.
    cbn [outcome_of remote effects].
    rewrite (unfurl_links_frame pre m0). cbn [outcome_of remote effects].
    rewrite Hm. split; [by eexists|done].
Qed.

(** What the loop body does at a link is part of what the task does. *)
Lemma body_effects_in_task ev w pre link rest unfurls (e : effect) :
  Links ev = pre ++ link :: rest ->
  outcome_of (unfurl_links pre ∅ w) = Returned unfurls ->
  e ∈ effects (unfurl_link ∅ link (remote (unfurl_links pre ∅ w))) ->
  e ∈ effects (unfurl ev w).
Proof.
  intros Hl Ho Hin.
  assert (e ∈ effects (unfurl_links (Links ev) ∅ w)) as Hloop.
  { rewrite Hl, unfurl_links_app. unfold bind. rewrite Ho.
    cbn [outcome_of remote effects]. apply elem_of_app. right.
    rewrite unfurl_links_cons. unfold bind.
    rewrite (unfurl_link_frame unfurls link). cbn [outcome_of remote effects].
    destruct (outcome_of (unfurl_link ∅ link _)); cbn [outcome_of remote effects];
      [apply elem_of_app; by left|done]. }
  unfold unfurl, bind.
  destruct (outcome_of (unfurl_links (Links ev) ∅ w)); cbn [effects]; [|done].
  apply elem_of_app. by left.
Qed.

Lemma post_in_effects ev w channel ts batch :
  PostUnfurl channel ts batch ∈ effects (unfurl ev w) ->
  channel = Channel ev /\ ts = MessageTimeStamp ev /\
  batch = batch_from ∅ (resolved (Links ev) w) /\ batch <> ∅.
Proof.
  intros Hin.
  assert (PostUnfurl channel ts batch ∈ posts (effects (unfurl ev w))) as Hp.
  { apply list_elem_of_In, List.filter_In. split; [by apply list_elem_of_In|done]. }
  pose proof (unfurl_after_loop ev w) as Ha.
  destruct (outcome_of (unfurl_links (Links ev) ∅ w)) as [unfurls|msg] eqn:Ho;
    destruct Ha as [_ Ha]; rewrite Ha in Hp; [|by apply elem_of_nil in Hp].
  destruct (size unfurls =? 0)%nat eqn:Hz; [by apply elem_of_nil in Hp|].
  apply list_elem_of_singleton in Hp. simplify_eq.
  apply unfurl_links_returned in Ho. do 3 (split; [done|]).
  intros ->. by rewrite map_size_empty in Hz.
Qed.

(** X9.  Whatever the task posts is complete: the post is for the channel and
    message of the event, its batch is not empty, and every entry in it has a
    non-empty title, its own key as title link and the footer [Notion]; its
    key is the URL of a link of the event whose domain passes the filter; and
    it is made of the page the task fetched for that link: the page
    [DownloadPage] returned, in the state of the world the loop had reached
    at the link, for the identifier of the link's URL, a call that is among
    the effects of the task; the title is a usable title of that page and the
    text is its preview, of at most 1000 code points and well-formed. *)
Theorem posted_entries_are_complete ev w channel ts batch :
  PostUnfurl channel ts batch ∈ effects (unfurl ev w) ->
  channel = Channel ev /\ ts = MessageTimeStamp ev /\ batch <> ∅ /\
  forall k a,
    batch !! k = Some a ->
    slack.TitleLink a = k /\ slack.Footer a = "Notion" /\ slack.Title a <> "" /\
    (exists link, link ∈ Links ev /\ URL link = k /\ matching link = true) /\
    (exists pre link rest u page w',
       Links ev = pre ++ link :: rest /\ URL link = k /\
       matching link = true /\
       url_Parse (URL link) = Ok u /\
       let pageID := ExtractNoDashIDFromNotionURL
                       (URL_String (url.set_Fragment (url.set_RawQuery u "") "")) in
       DownloadPage pageID (remote (unfurl_links pre ∅ w)) = (Ok page, w') /\
       Download pageID ∈ effects (unfurl ev w) /\
       usable_title page (slack.Title a) /\
       slack.Text a = get_text page) /\
    length (Utf8.runes_of_string (slack.Text a)) <= 1000 /\
    Utf8.ValidString (slack.Text a) = true.
Proof.
  intros Hin. destruct (post_in_effects _ _ _ _ _ Hin) as (-> & -> & Hb & Hne).
  do 3 (split; [done|]). intros k a Hk. rewrite Hb in Hk.
  apply lookup_batch_from in Hk as [Hk|Hk]; [|by rewrite lookup_empty in Hk].
  destruct (resolved_at _ _ _ _ Hk) as (pre & link & rest & Hl & <- & [m Hm] & Hr).
  destruct (resolution_fetch _ _ _ Hr)
    as (u & page & w' & Hd & Hu & Hp & He & Ht & Htl & Hf & Hx).
  split; [done|]. split; [done|]. split; [apply Ht|].
  split.
  { exists link. split; [|done]. rewrite Hl. apply elem_of_app. right. by left. }
  split.
  { exists pre, link, rest, u, page, w'. do 5 (split; [done|]).
    split; [|done]. by apply (body_effects_in_task ev w pre link rest m). }
  rewrite Hx. change (get_text page) with (truncate (extracted_text (ToMarkdown page))).
  destruct (runes_truncate (extracted_text (ToMarkdown page))) as [-> Hv].
  split; [|done]. rewrite length_take. unfold max_chars. lia.
Qed.

(** X10.  For each URL the batch holds the entry of the last link that
    resolved with that URL: the loop returns the map that gives every URL the
    last entry resolved for it, and none to a URL no resolved link has; this is
    the batch of the post. *)
Theorem batch_holds_the_last_entry_per_url ev w :
  (forall unfurls,
     outcome_of (unfurl_links (Links ev) ∅ w) = Returned unfurls ->
     forall k, unfurls !! k = last_entry (resolved (Links ev) w) k) /\
  (forall channel ts batch,
     PostUnfurl channel ts batch ∈ effects (unfurl ev w) ->
     forall k, batch !! k = last_entry (resolved (Links ev) w) k).
Proof.
  assert (forall k, batch_from ∅ (resolved (Links ev) w) !! k
                    = last_entry (resolved (Links ev) w) k) as Hl.
  { intros k. rewrite batch_from_last, lookup_empty. by destruct (last_entry _ _). }
  split.
  - intros unfurls Ho k. apply unfurl_links_returned in Ho. by rewrite Ho.
  - intros channel ts batch Hin k.
    destruct (post_in_effects _ _ _ _ _ Hin) as (_ & _ & -> & _). done.
Qed.

(** X11.  The links of other domains take no part in the task: the event with
    those links removed gives the same run, effect for effect. *)
Theorem other_domains_are_invisible ev w :
  unfurl ev w = unfurl (matching_only ev) w /\
  forall unfurls,
    unfurl_links (Links ev) unfurls w =
    unfurl_links (List.filter matching (Links ev)) unfurls w.
Proof.
  split; [|intros; apply unfurl_links_matching].
  unfold unfurl, bind, matching_only. cbn [Links Channel MessageTimeStamp].
  by rewrite <- unfurl_links_matching.
Qed.

(** X12.  When Slack refuses the post, the task logs the error and returns:
    one post was attempted, with the whole batch, and nothing follows the log
    line; when Slack accepts it, the post is the last effect. *)
Theorem post_error_is_logged_and_dropped ev w unfurls :
  outcome_of (unfurl_links (Links ev) ∅ w) = Returned unfurls ->
  unfurls <> ∅ ->
  let loop := unfurl_links (Links ev) ∅ w in
  let post := PostUnfurl (Channel ev) (MessageTimeStamp ev) unfurls in
  (forall err w',
     PostMessage (Channel ev) (MessageTimeStamp ev) unfurls (remote loop)
       = (Some err, w') ->
     unfurl ev w = {| outcome_of := Returned tt; remote := w';
                      effects := effects loop ++ [post; Log err] |}) /\
  (forall w',
     PostMessage (Channel ev) (MessageTimeStamp ev) unfurls (remote loop)
       = (None, w') ->
     unfurl ev w = {| outcome_of := Returned tt; remote := w';
                      effects := effects loop ++ [post] |}).
Proof.
  intros Ho Hne loop post. subst loop post.
  assert ((size unfurls =? 0)%nat = false) as Hz.
  { apply Nat.eqb_neq. by intros ?%map_size_empty_inv. }
  split.
  - intros err w' Hp. unfold unfurl, bind. rewrite Ho, Hz.
    unfold postMessage. rewrite Hp. done.
  - intros w' Hp. unfold unfurl, bind. rewrite Ho, Hz.
    unfold postMessage. rewrite Hp. done.
Qed.

(** X13.  A page without a title whose first table view has no name is
    passed over with the log line [title is not found], whatever the names of
    its other views: the loop goes on with the links that follow, on the same
    batch. *)
Theorem unnamed_first_view_is_logged_and_skipped
    link rest unfurls w u page w' view views :
  matching link = true ->
  url_Parse (URL link) = Ok u ->
  let pageID := ExtractNoDashIDFromNotionURL
                  (URL_String (url.set_Fragment (url.set_RawQuery u "") "")) in
  DownloadPage pageID w = (Ok page, w') ->
  Root_Title page = "" ->
  Root_TableViews page = view :: views ->
  Collection_GetName view = "" ->
  unfurl_links (link :: rest) unfurls w =
    after [Download pageID; Log "title is not found"]
      (unfurl_links rest unfurls w') /\
  resolution link w = None.
Proof.
  intros Hd Hu pageID Hp Ht Hv Hn. unfold matching in Hd. split.
  - rewrite unfurl_links_cons. unfold bind at 1, unfurl_link.
    rewrite Hd, Hu. cbn [negb]. unfold bind, downloadPage, emit, ret, after.
    fold pageID. rewrite Hp. cbn [outcome_of remote effects].
    rewrite Ht, Hv, Hn. cbn [String.eqb outcome_of remote effects app].
    done.
  - unfold resolution, unfurl_link. rewrite Hd, Hu. cbn [negb].
    unfold bind, downloadPage, emit, ret. fold pageID. rewrite Hp.
    cbn [outcome_of remote effects]. rewrite Ht, Hv, Hn.
    cbn [String.eqb outcome_of remote effects app]. by rewrite lookup_empty.
Qed.

(** X14.  When the loop body panics at a link, the task ends there: the
    links that follow are not visited, and the entries of the links resolved
    before it are never posted. *)
Theorem panic_discards_the_batch ev w pre link rest unfurls msg :
  Links ev = pre ++ link :: rest ->
  outcome_of (unfurl_links pre ∅ w) = Returned unfurls ->
  let w1 := remote (unfurl_links pre ∅ w) in
  outcome_of (unfurl_link ∅ link w1) = Panicked msg ->
  outcome_of (unfurl ev w) = Panicked msg /\
  effects (unfurl ev w) =
    effects (unfurl_links pre ∅ w) ++ effects (unfurl_link ∅ link w1) /\
  remote (unfurl ev w) = remote (unfurl_link ∅ link w1) /\
  posts (effects (unfurl ev w)) = [].
Proof.
  intros Hl Ho w1 Hp.
  assert (unfurl_links (Links ev) ∅ w =
          {| outcome_of := Panicked msg; remote := remote (unfurl_link ∅ link w1);
             effects := effects (unfurl_links pre ∅ w)
                        ++ effects (unfurl_link ∅ link w1) |}) as Hloop.
  { rewrite Hl, unfurl_links_app. unfold bind. rewrite Ho.
    cbn [outcome_of remote effects]. fold w1. rewrite unfurl_links_cons.
    unfold bind. rewrite (unfurl_link_frame unfurls link w1).
    cbn [outcome_of remote effects]. rewrite Hp.
    cbn [outcome_of remote effects]. done. }
  assert (unfurl ev w =
          {| outcome_of := Panicked msg; remote := remote (unfurl_link ∅ link w1);
             effects := effects (unfurl_links pre ∅ w)
                        ++ effects (unfurl_link ∅ link w1) |}) as Hrun.
  { unfold unfurl, bind. rewrite Hloop. done. }
  rewrite Hrun. cbn [outcome_of remote effects]. do 3 (split; [done|]).
  by rewrite posts_app, unfurl_links_no_post, unfurl_link_no_post.
Qed.

End Task.

(** ** The size of the preview *)

Section PreviewSize.

Import Utf8.

Lemma EncodeRune_length (r : Z) : 1 <= String.length (EncodeRune r) <= 4.
Proof.
  unfold EncodeRune, encode3.
  repeat match goal with
  | |- context [if ?b then _ else _] => destruct b
  end; cbn [String.length]; lia.
Qed.

Lemma string_of_runes_length (rs : list Z) :
  length rs <= String.length (string_of_runes rs) <= 4 * length rs.
Proof.
  induction rs as [|r rs IH]; [cbn; lia|].
  cbn [string_of_runes length]. rewrite str_length_app.
  pose proof (EncodeRune_length r). lia.
Qed.

Lemma count_byte_Join (ls : list string) :
  Forall (fun l => has_byte LF l = false) ls ->
  count_byte LF (GoStrings.Join ls newline) = length ls - 1.
Proof.
  induction 1 as [|l ls Hl _ IH]; [done|].
  apply count_byte_has in Hl.
  destruct ls as [|l' ls]; [by cbn [GoStrings.Join length]; rewrite Hl|].
  change (GoStrings.Join (l :: l' :: ls) newline)
    with (l +:+ String LF (GoStrings.Join (l' :: ls) newline)).
  rewrite count_byte_app. cbn [count_byte]. rewrite Ascii.eqb_refl, IH, Hl.
  cbn [length]. lia.
Qed.

(** The line feeds of a string are the runes 10 of its decoding. *)
Lemma count_LF_encode (r : Z) :
  reads_back r ->
  count_byte LF (EncodeRune r) = if (r =? 10)%Z then 1 else 0.
Proof.
  intros (Hd & Hlen & Hflag).
  destruct (EncodeRune r) as [|c t] eqn:He; [cbn in Hlen; lia|].
  specialize (Hd EmptyString). rewrite str_app_cons in Hd.
  assert (t +:+ "" = t) as Ht.
  { clear. induction t as [|a t IH]; [done|]. by rewrite str_app_cons, IH. }
  rewrite Ht in Hd. clear Ht. cbn [String.length] in *.
  pose proof (byte_val_range c) as Hc.
  assert (forall a : ascii, (0x80 <= byte_val a)%Z -> Ascii.eqb a LF = false) as Hhigh.
  { intros a Ha. apply Ascii.eqb_neq. intros ->. vm_compute in Ha. by apply Ha. }
  destruct (decode_cases c t)
    as [Hbad|[H1|[(c1 & t1 & -> & H2)|[(c1 & c2 & t2 & -> & H3)
       |(c1 & c2 & c3 & t3 & -> & H4)]]]].
  - rewrite Hbad in Hd. injection Hd as Hr Hl.
    rewrite <- Hr, <- Hl in Hflag. by vm_compute in Hflag.
  - rewrite decode_rune1 in Hd by done. injection Hd as Hr Hl.
    destruct t; [|done]. cbn [count_byte]. rewrite <- Hr.
    destruct (Ascii.eqb_spec c LF) as [->|Hne]; [done|].
    destruct (Z.eqb_spec (byte_val c) 10) as [Heq|]; [|done].
    destruct Hne. rewrite <- (byte_of_val c), Heq. done.
  - rewrite decode_rune2 in Hd by done. injection Hd as Hr Hl.
    destruct t1; [|done]. destruct H2 as [H0 H1].
    cbn [count_byte]. rewrite !Hhigh by lia.
    rewrite <- Hr, rune2_arith.
    destruct (Z.eqb_spec (byte_val c mod 32 * 64 + byte_val c1 mod 64) 10);
      [|done].
    exfalso. Z.to_euclidean_division_equations; lia.
  - rewrite decode_rune3 in Hd by done. injection Hd as Hr Hl.
    destruct t2; [|done]. destruct H3 as (H0 & H1 & Hlo & Hhi & H2).
    cbn [count_byte]. rewrite !Hhigh by lia.
    rewrite <- Hr, rune3_arith.
    match goal with |- context [(?x =? 10)%Z] => destruct (Z.eqb_spec x 10) end;
      [|done].
    exfalso. Z.to_euclidean_division_equations; lia.
  - rewrite decode_rune4 in Hd by done. injection Hd as Hr Hl.
    destruct t3; [|done]. destruct H4 as (H0 & H1 & Hlo & Hhi & H2 & H3).
    cbn [count_byte]. rewrite !Hhigh by lia.
    rewrite <- Hr, rune4_arith.
    match goal with |- context [(?x =? 10)%Z] => destruct (Z.eqb_spec x 10) end;
      [|done].
    exfalso. Z.to_euclidean_division_equations; lia.
Qed.

Lemma count_LF_string_of_runes (rs : list Z) :
  Forall reads_back rs ->
  count_byte LF (string_of_runes rs) = length (List.filter (Z.eqb 10) rs).
Proof.
  induction 1 as [|r rs Hr _ IH]; [done|].
  cbn [string_of_runes List.filter]. rewrite count_byte_app, IH, (count_LF_encode r Hr).
  rewrite (Z.eqb_sym 10 r). by destruct (r =? 10)%Z.
Qed.

Lemma count_LF_runes (s : string) :
  length (List.filter (Z.eqb 10) (runes_of_string s)) = count_byte LF s.
Proof.
  remember (String.length s) as n eqn:Hn.
  assert (String.length s <= n) as Hle by lia. clear Hn.
  revert s Hle. induction n as [|n IH]; intros [|c t] Hle;
    cbn [String.length] in Hle; try lia; try done.
  rewrite runes_cons. cbn [List.filter].
  pose proof (sdrop_length ((DecodeRuneInString (String c t)).2 - 1) t) as Hd.
  rewrite <- (Z.eqb_sym _ 10).
  destruct (decode_step c t) as [Hr [He|[Hs Hflag]]].
  - rewrite He. cbn [fst snd Nat.sub sdrop]. change (RuneError =? 10)%Z with false.
    cbv iota. rewrite IH by lia. cbn [count_byte].
    destruct (Ascii.eqb_spec c LF) as [->|Hne]; [|done].
    by vm_compute in He.
  - remember (DecodeRuneInString (String c t)) as d eqn:Hdec.
    rewrite Hs, count_byte_app, (count_LF_encode _ Hr).
    destruct (d.1 =? 10)%Z; cbn [length]; rewrite IH by lia; done.
Qed.

Lemma filter_take_length {A : Type} (f : A -> bool) (n : nat) (l : list A) :
  length (List.filter f (take n l)) <= length (List.filter f l).
Proof.
  rewrite <- (take_drop n l) at 2. rewrite List.filter_app, length_app. lia.
Qed.

Lemma truncate_bounds (text : string) :
  length (runes_of_string (truncate text)) <= 1000 /\
  String.length (truncate text) <= 4000 /\
  count_byte LF (truncate text) <= count_byte LF text.
Proof.
  split; [|split].
  - rewrite (proj1 (runes_truncate text)), length_take. unfold max_chars. lia.
  - rewrite truncate_take.
    pose proof (string_of_runes_length (take max_chars (runes_of_string text))) as Hl.
    rewrite length_take in Hl. unfold max_chars in *. lia.
  - rewrite truncate_take, count_LF_string_of_runes
      by apply Forall_take, runes_read_back.
    rewrite <- count_LF_runes. apply filter_take_length.
Qed.

Lemma extracted_text_lines (md : string) :
  count_byte LF (extracted_text md) <= 24.
Proof.
  unfold extracted_text. rewrite get_text_lines_spec.
  rewrite count_byte_Join.
  - rewrite length_take. unfold num_lines. lia.
  - apply Forall_take, Forall_drop, Split_length.
Qed.

(** X15.  The preview is bounded whatever the page: at most 1000 code points,
    at most 4000 bytes, and at most 24 line feeds, that is 25 lines; the cut to
    1000 code points adds no line feed to a text. *)
Theorem preview_is_bounded :
  (forall text,
     length (runes_of_string (truncate text)) <= 1000 /\
     String.length (truncate text) <= 4000 /\
     count_byte LF (truncate text) <= count_byte LF text) /\
  (forall md,
     length (runes_of_string (text_of_markdown md)) <= 1000 /\
     String.length (text_of_markdown md) <= 4000 /\
     count_byte LF (text_of_markdown md) <= 24) /\
  (forall (C : Collaborators) (page : Page),
     length (runes_of_string (get_text page)) <= 1000 /\
     String.length (get_text page) <= 4000 /\
     count_byte LF (get_text page) <= 24).
Proof.
  assert (forall md,
     length (runes_of_string (text_of_markdown md)) <= 1000 /\
     String.length (text_of_markdown md) <= 4000 /\
     count_byte LF (text_of_markdown md) <= 24) as Hmd.
  { intros md.
    change (text_of_markdown md) with (truncate (extracted_text md)).
    destruct (truncate_bounds (extracted_text md)) as (Hr & Hb & Hl).
    pose proof (extracted_text_lines md). repeat split; (done || lia). }
  split; [apply truncate_bounds|]. split; [done|].
  intros C page. apply Hmd.
Qed.

(** X16.  The cut to 1000 code points is idempotent, and it leaves a text as
    it is exactly when the text is well-formed UTF-8 of at most 1000 code
    points; the preview [get_text] returns is such a text. *)
Theorem cut_fixes_short_well_formed_texts :
  (forall text, truncate (truncate text) = truncate text) /\
  (forall text,
     truncate text = text <->
     ValidString text = true /\ length (runes_of_string text) <= 1000) /\
  (forall (C : Collaborators) (page : Page),
     truncate (get_text page) = get_text page).
Proof.
  assert (forall text, truncate (truncate text) = truncate text) as Hidem.
  { intros text. rewrite (truncate_take (truncate text)).
    rewrite (proj1 (runes_truncate text)), take_take, Nat.min_id.
    by rewrite <- truncate_take. }
  split; [done|]. split.
  - intros text. split.
    + intros Ht. destruct (runes_truncate text) as [Hr Hv].
      rewrite Ht in Hr, Hv. split; [done|].
      rewrite Hr, length_take. unfold max_chars. lia.
    + intros [Hv Hl]. rewrite truncate_take, take_ge by by unfold max_chars.
      by apply valid_roundtrip.
  - intros C page.
    change (get_text page) with (truncate (extracted_text (ToMarkdown page))).
    apply Hidem.
Qed.

(** X17.  A markdown with at most one line feed, so of two lines at most,
    gives the empty preview: the two lines passed over are all there is. *)
Theorem two_lines_give_no_preview :
  (forall md, count_byte LF md <= 1 -> text_of_markdown md = "") /\
  (forall (C : Collaborators) (page : Page),
     count_byte LF (ToMarkdown page) <= 1 -> get_text page = "").
Proof.
  assert (forall md, count_byte LF md <= 1 -> text_of_markdown md = "") as Hmd.
  { intros md Hc. unfold text_of_markdown. fold LF. rewrite get_text_lines_spec.
    pose proof (proj1 (Split_length md LF)) as Hl.
    rewrite drop_ge by lia. done. }
  split; [done|]. intros C page. apply Hmd.
Qed.

(** X18.  A markdown whose text after the second line feed is well-formed
    UTF-8 of at most 25 lines and 1000 code points has that text as its
    preview, byte for byte. *)
Theorem short_body_is_kept_verbatim (l0 l1 body : string) :
  has_byte LF l0 = false ->
  has_byte LF l1 = false ->
  count_byte LF body < 25 ->
  length (runes_of_string body) <= 1000 ->
  ValidString body = true ->
  text_of_markdown (l0 +:+ newline +:+ l1 +:+ newline +:+ body) = body.
Proof.
  intros H0 H1 Hc Hl Hv.
  assert (GoStrings.Split (l0 +:+ newline +:+ l1 +:+ newline +:+ body) LF
          = l0 :: l1 :: GoStrings.Split body LF) as Hsplit.
  { unfold newline. by rewrite !str_app_cons, !str_app_nil_l, !Split_line. }
  change (text_of_markdown ?md) with (truncate (extracted_text md)).
  unfold extracted_text. rewrite get_text_lines_spec, Hsplit.
  change (drop 2 (l0 :: l1 :: ?l)) with l.
  pose proof (proj1 (Split_length body LF)) as Hlen.
  rewrite take_ge by (unfold num_lines; lia).
  unfold newline. rewrite Join_Split.
  rewrite truncate_take, take_ge by by unfold max_chars.
  by apply valid_roundtrip.
Qed.

End PreviewSize.

(** ** Encoding and decoding Unicode scalar values *)

Section Utf8Scalars.

Import Utf8.
Local Open Scope Z_scope.

Ltac dlia := Z.to_euclidean_division_equations; lia.

Ltac pick_case :=
  repeat match goal with
  | |- context [(?a <=? ?b)] =>
      destruct (Z.leb_spec a b); try lia; cbn [orb andb]
  | |- context [(?a <? ?b)] =>
      destruct (Z.ltb_spec a b); try lia; cbn [orb andb]
  end.

Lemma byte_val_of (z : Z) : 0 <= z < 256 -> byte_val (byte_of z) = z.
Proof.
  intros Hz. unfold byte_val, byte_of.
  rewrite N_ascii_embedding by lia. lia.
Qed.

Lemma encode_ascii (r : Z) :
  0 <= r <= 0x7F -> EncodeRune r = String (byte_of r) EmptyString.
Proof.
  intros Hr. unfold EncodeRune. rewrite Z.mod_small by lia.
  unfold rune1Max. by pick_case.
Qed.

Lemma encode_2 (r : Z) :
  0x80 <= r <= 0x7FF ->
  EncodeRune r = String (byte_of (192 + r / 64))
                (String (byte_of (128 + r mod 64)) EmptyString).
Proof.
  intros Hr. unfold EncodeRune. rewrite (Z.mod_small r (2 ^ 32)) by lia.
  unfold rune1Max, rune2Max. pick_case.
  rewrite land_maskx, Z.shiftr_div_pow2 by lia. change (2 ^ 6) with 64.
  assert (r / 64 mod 256 = r / 64) as -> by dlia.
  assert (r mod 256 mod 64 = r mod 64) as -> by dlia.
  rewrite lor_t2, lor_tx by dlia. done.
Qed.

Lemma encode_3 (r : Z) :
  0x800 <= r <= 0xFFFF -> ~ (0xD800 <= r <= 0xDFFF) ->
  EncodeRune r = String (byte_of (224 + r / 4096))
                (String (byte_of (128 + r / 64 mod 64))
                (String (byte_of (128 + r mod 64)) EmptyString)).
Proof.
  intros Hr Hs. unfold EncodeRune. rewrite (Z.mod_small r (2 ^ 32)) by lia.
  unfold rune1Max, rune2Max, rune3Max, MaxRune, surrogateMin, surrogateMax.
  pick_case.
  all: unfold encode3;
    rewrite !land_maskx, !Z.shiftr_div_pow2 by lia;
    change (2 ^ 6) with 64; change (2 ^ 12) with 4096;
    assert (r / 4096 mod 256 = r / 4096) as -> by dlia;
    assert (r / 64 mod 256 mod 64 = r / 64 mod 64) as -> by dlia;
    assert (r mod 256 mod 64 = r mod 64) as -> by dlia;
    rewrite lor_t3, !lor_tx by dlia; done.
Qed.

Lemma encode_4 (r : Z) :
  0x10000 <= r <= 0x10FFFF ->
  EncodeRune r = String (byte_of (240 + r / 262144))
                (String (byte_of (128 + r / 4096 mod 64))
                (String (byte_of (128 + r / 64 mod 64))
                (String (byte_of (128 + r mod 64)) EmptyString))).
Proof.
  intros Hr. unfold EncodeRune. rewrite (Z.mod_small r (2 ^ 32)) by lia.
  unfold rune1Max, rune2Max, rune3Max, MaxRune, surrogateMin, surrogateMax.
  pick_case.
  all: rewrite !land_maskx, !Z.shiftr_div_pow2 by lia;
    change (2 ^ 6) with 64; change (2 ^ 12) with 4096;
    change (2 ^ 18) with 262144;
    assert (r / 262144 mod 256 = r / 262144) as -> by dlia;
    assert (r / 4096 mod 256 mod 64 = r / 4096 mod 64) as -> by dlia;
    assert (r / 64 mod 256 mod 64 = r / 64 mod 64) as -> by dlia;
    assert (r mod 256 mod 64 = r mod 64) as -> by dlia;
    rewrite lor_t4, !lor_tx by dlia; done.
Qed.

(** What is not a scalar value is written as U+FFFD. *)
Lemma encode_other (r : Z) :
  - 2 ^ 31 <= r < 2 ^ 31 -> ~ scalar_value r ->
  EncodeRune r = EncodeRune RuneError.
Proof.
  unfold scalar_value, surrogateMin, surrogateMax, MaxRune. intros Hr Hs.
  unfold EncodeRune at 1.
  unfold rune1Max, rune2Max, rune3Max, MaxRune, surrogateMin, surrogateMax.
  destruct (decide (r < 0)) as [Hneg|Hpos].
  - assert (r mod 2 ^ 32 = r + 2 ^ 32) as -> by dlia.
    pick_case. done.
  - rewrite Z.mod_small by lia. pick_case; done.
Qed.

Lemma reads_back_scalar (r : Z) : scalar_value r -> reads_back r.
Proof.
  unfold scalar_value, surrogateMin, surrogateMax, MaxRune. intros Hs.
  destruct (decide (r <= 0x7F)) as [H1|H1].
  { unfold reads_back. rewrite !encode_ascii by lia.
    assert (byte_val (byte_of r) = r) as Hb by (apply byte_val_of; lia).
    split; [|split].
    - intros rest. rewrite str_app_cons, decode_rune1, Hb by lia. done.
    - cbn. lia.
    - apply andb_false_iff. left. apply Z.eqb_neq. unfold RuneError. lia. }
  destruct (decide (r <= 0x7FF)) as [H2|H2].
  { unfold reads_back. rewrite !encode_2 by lia.
    assert (byte_val (byte_of (192 + r / 64)) = 192 + r / 64) as Hb0
      by (apply byte_val_of; dlia).
    assert (byte_val (byte_of (128 + r mod 64)) = 128 + r mod 64) as Hb1
      by (apply byte_val_of; dlia).
    split; [|split].
    - intros rest. rewrite !str_app_cons, decode_rune2.
      + rewrite rune2_arith, Hb0, Hb1. cbn [String.length]. f_equal. dlia.
      + unfold seq2. rewrite Hb0, Hb1. dlia.
    - cbn. lia.
    - cbn [String.length Nat.eqb]. apply andb_false_r. }
  destruct (decide (r <= 0xFFFF)) as [H3|H3].
  { unfold reads_back. rewrite !encode_3 by lia.
    assert (byte_val (byte_of (224 + r / 4096)) = 224 + r / 4096) as Hb0
      by (apply byte_val_of; dlia).
    assert (byte_val (byte_of (128 + r / 64 mod 64)) = 128 + r / 64 mod 64) as Hb1
      by (apply byte_val_of; dlia).
    assert (byte_val (byte_of (128 + r mod 64)) = 128 + r mod 64) as Hb2
      by (apply byte_val_of; dlia).
    split; [|split].
    - intros rest. rewrite !str_app_cons, decode_rune3.
      + rewrite rune3_arith, Hb0, Hb1, Hb2. cbn [String.length]. f_equal. dlia.
      + unfold seq3. rewrite Hb0, Hb1, Hb2. dlia.
    - cbn. lia.
    - cbn [String.length Nat.eqb]. apply andb_false_r. }
  unfold reads_back. rewrite !encode_4 by lia.
  assert (byte_val (byte_of (240 + r / 262144)) = 240 + r / 262144) as Hb0
    by (apply byte_val_of; dlia).
  assert (byte_val (byte_of (128 + r / 4096 mod 64)) = 128 + r / 4096 mod 64) as Hb1
    by (apply byte_val_of; dlia).
  assert (byte_val (byte_of (128 + r / 64 mod 64)) = 128 + r / 64 mod 64) as Hb2
    by (apply byte_val_of; dlia).
  assert (byte_val (byte_of (128 + r mod 64)) = 128 + r mod 64) as Hb3
    by (apply byte_val_of; dlia).
  split; [|split].
  - intros rest. rewrite !str_app_cons, decode_rune4.
    + rewrite rune4_arith, Hb0, Hb1, Hb2, Hb3. cbn [String.length]. f_equal. dlia.
    + unfold seq4. rewrite Hb0, Hb1, Hb2, Hb3. dlia.
  - cbn. lia.
  - cbn [String.length Nat.eqb]. apply andb_false_r.
Qed.

Lemma decode_scalar (c : ascii) (t : string) :
  scalar_value (DecodeRuneInString (String c t)).1.
Proof.
  unfold scalar_value, surrogateMin, surrogateMax, MaxRune.
  pose proof (byte_val_range c) as Hc.
  destruct (decode_cases c t)
    as [He|[H1|[(c1 & t1 & -> & H2)|[(c1 & c2 & t2 & -> & H3)
       |(c1 & c2 & c3 & t3 & -> & H4)]]]].
  - rewrite He. cbn [fst]. unfold RuneError. lia.
  - rewrite decode_rune1 by done. cbn [fst]. lia.
  - rewrite decode_rune2 by done. cbn [fst]. rewrite rune2_arith.
    destruct H2 as [H0 H1]. dlia.
  - rewrite decode_rune3 by done. cbn [fst]. rewrite rune3_arith.
    destruct H3 as (H0 & H1 & Hlo & Hhi & H2). dlia.
  - rewrite decode_rune4 by done. cbn [fst]. rewrite rune4_arith.
    destruct H4 as (H0 & H1 & Hlo & Hhi & H2 & H3). dlia.
Qed.

Lemma runes_scalar (s : string) : Forall scalar_value (runes_of_string s).
Proof.
  remember (String.length s) as n eqn:Hn.
  assert (String.length s <= n)%nat as Hle by lia. clear Hn.
  revert s Hle. induction n as [|n IH]; intros [|c t] Hle;
    cbn [String.length] in Hle; try lia; try by constructor.
  rewrite runes_cons. constructor.
  - apply decode_scalar.
  - apply IH. pose proof (sdrop_length ((DecodeRuneInString (String c t)).2 - 1) t).
    lia.
Qed.

(** X19.  The conversions [get_text] cuts its text with are inverse to each
    other on Unicode scalar values: a sequence of scalar values written by
    [string(rs)] is well-formed UTF-8 and is read back by [[]rune(s)] as it
    was; a rune that is no scalar value (negative, a surrogate, or above
    U+10FFFF) is written and read back as U+FFFD; and [[]rune(s)] gives
    scalar values only, whatever the bytes of [s]. *)
Theorem scalar_values_round_trip :
  (forall rs,
     Forall scalar_value rs ->
     runes_of_string (string_of_runes rs) = rs /\
     ValidString (string_of_runes rs) = true) /\
  (forall r,
     - 2 ^ 31 <= r < 2 ^ 31 -> ~ scalar_value r ->
     runes_of_string (string_of_runes [r]) = [RuneError]) /\
  (forall s, Forall scalar_value (runes_of_string s)).
Proof.
  split; [|split].
  - intros rs Hrs. apply reads_back_roundtrip.
    eapply Forall_impl; [apply Hrs|]. apply reads_back_scalar.
  - intros r Hr Hs. cbn [string_of_runes]. rewrite (encode_other r Hr Hs).
    by vm_compute.
  - apply runes_scalar.
Qed.

End Utf8Scalars.

(** ** Start-up *)

Section Startup.

Implicit Types (env : os.Environ) (g : vars.t).

Lemma Getenv_unset env (key : string) :
  os.Getenv (delete key env) key = "" /\
  os.Getenv (<[key := ""]> env) key = "" /\
  forall key', key' <> key ->
    os.Getenv (delete key env) key' = os.Getenv env key' /\
    os.Getenv (<[key := ""]> env) key' = os.Getenv env key'.
Proof.
  unfold os.Getenv, os.Environ in *. rewrite lookup_delete_eq, lookup_insert_eq.
  split; [done|]. split; [done|]. intros key' Hne.
  by rewrite lookup_delete_ne, lookup_insert_ne.
Qed.

(** X20.  [initialize] succeeds exactly when [SLACK_SIGNING_SECRET] and
    [SLACK_TOKEN] are both set to something non-empty; [NOTION_TOKEN] is not
    checked.  On success the three variables are what the environment says,
    whatever they were before; a missing secret is reported first and, like a
    missing token, leaves the Slack client as it was; and a variable that is
    not set counts as one set to the empty string. *)
Theorem initialize_needs_the_slack_settings env g :
  let secret := os.Getenv env "SLACK_SIGNING_SECRET" in
  let token := os.Getenv env "SLACK_TOKEN" in
  ((initialize env g).2 = None <-> secret <> "" /\ token <> "") /\
  ((initialize env g).2 = None ->
   (initialize env g).1 =
     {| vars.notionClient := Some (os.Getenv env "NOTION_TOKEN");
        vars.slackCli := Some token;
        vars.slackSigningSecret := secret |}) /\
  (secret = "" ->
   (initialize env g).2 = Some "env SLACK_SIGNING_SECRET required") /\
  (secret <> "" -> token = "" ->
   (initialize env g).2 = Some "env SLACK_TOKEN is empty") /\
  ((initialize env g).2 <> None ->
   vars.slackCli (initialize env g).1 = vars.slackCli g) /\
  (forall value,
     (initialize (<["NOTION_TOKEN" := value]> env) g).2 = (initialize env g).2) /\
  (forall key,
     initialize (delete key env) g = initialize (<[key := ""]> env) g).
Proof.
  intros secret token. unfold initialize. cbn [vars.slackSigningSecret vars.slackCli
    vars.notionClient]. fold secret. fold token.
  split; [|split; [|split; [|split; [|split; [|split]]]]].
  - destruct (String.eqb_spec secret "") as [->|Hs];
      [cbn [snd]; split; [done|by intros [[] _]]|].
    destruct (String.eqb_spec token "") as [->|Ht];
      [cbn [snd]; split; [done|by intros [_ []]]|].
    done.
  - destruct (secret =? "")%string; [done|].
    destruct (token =? "")%string; done.
  - intros ->. done.
  - intros Hs ->. apply String.eqb_neq in Hs. by rewrite Hs.
  - destruct (secret =? "")%string; [done|].
    destruct (token =? "")%string; done.
  - intros value. subst secret token. unfold os.Getenv, os.Environ in *.
    rewrite (lookup_insert_ne env "NOTION_TOKEN" "SLACK_SIGNING_SECRET") by done.
    rewrite (lookup_insert_ne env "NOTION_TOKEN" "SLACK_TOKEN") by done.
    destruct (default "" (env !! "SLACK_SIGNING_SECRET") =? "")%string; [done|].
    destruct (default "" (env !! "SLACK_TOKEN") =? "")%string; done.
  - intros key.
    assert (forall key', os.Getenv (delete key env) key'
                         = os.Getenv (<[key := ""]> env) key') as Hsame.
    { intros key'. destruct (Getenv_unset env key) as (Hd & Hi & Hne).
      destruct (decide (key' = key)) as [->|Hk]; [by rewrite Hd, Hi|].
      destruct (Hne key' Hk) as [-> ->]. done. }
    by rewrite !Hsame.
Qed.

(** X21.  [Run] builds a server only after [initialize] has succeeded: an
    error of [initialize] is returned as it is, and where a server is built,
    both clients exist, the signing secret is not empty, and the address is a
    colon followed by [PORT], or by [8080] when [PORT] is unset or empty. *)
Theorem run_serves_only_when_initialized env g :
  (forall err,
     (initialize env g).2 = Some err ->
     Run_server_Addr env g = ((initialize env g).1, Err err)) /\
  (forall g' addr,
     Run_server_Addr env g = (g', Ok addr) ->
     (initialize env g) = (g', None) /\
     vars.slackSigningSecret g' <> "" /\
     (exists token, token <> "" /\ vars.slackCli g' = Some token) /\
     vars.notionClient g' <> None /\
     (os.Getenv env "PORT" = "" -> addr = ":8080") /\
     (os.Getenv env "PORT" <> "" -> addr = ":" +:+ os.Getenv env "PORT")).
Proof.
  split.
  - intros err He. unfold Run_server_Addr.
    destruct (initialize env g) as [g' e]. cbn [fst snd] in *. by rewrite He.
  - intros g' addr. unfold Run_server_Addr.
    destruct (initialize env g) as [g1 [e|]] eqn:Hi; [done|].
    intros [= -> <-]. split; [done|].
    unfold initialize in Hi.
    cbn [vars.slackSigningSecret vars.slackCli vars.notionClient] in Hi.
    destruct (String.eqb_spec (os.Getenv env "SLACK_SIGNING_SECRET") "")
      as [|Hs]; [done|].
    destruct (String.eqb_spec (os.Getenv env "SLACK_TOKEN") "") as [|Ht]; [done|].
    injection Hi as <-.
    cbn [vars.slackSigningSecret vars.slackCli vars.notionClient].
    split; [done|]. split; [by eexists|]. split; [done|].
    destruct (String.eqb_spec (os.Getenv env "PORT") "") as [->|Hp]; done.
Qed.

End Startup.

(** ** The properties at work in the small world *)

#[local] Existing Instance Demo.world.

Lemma bad_signature_witness :
  index Demo.forged
  = done (WriteHeader newResponseWriter StatusBadRequest)
         [Log "Computed unexpected signature"].
Proof.
  apply (bad_signature_is_rejected (C:=Demo.world) Demo.forged "link_shared"); reflexivity.
Defined.

Lemma challenge_witness :
  index (Demo.signed "challenge=3eZbrw1aB")
  = done {| wroteHeader := Some 200;
            header := {[ "Content-Type" := "text/plain" ]};
            body := "3eZbrw1aB" |} [].
Proof.
  apply (challenge_is_echoed (C:=Demo.world) (Demo.signed "challenge=3eZbrw1aB")
           "challenge=3eZbrw1aB"
           {| Type_ := URLVerification;
              InnerEvent := {| InnerType := ""; Data := OtherData |} |}
           {| Challenge := "3eZbrw1aB" |}); reflexivity.
Defined.

Lemma no_resolution_witness :
  posts (effects (unfurl (Demo.event [Demo.link "x.notion.so" ":bad"]) 0)) = [] /\
  unfurl (Demo.event [Demo.link "example.com" "https://example.com/page"]) 0
  = ret tt 0.
Proof.
  split.
  - apply (proj1 (no_resolution_no_post (C:=Demo.world))). reflexivity.
  - apply (proj2 (no_resolution_no_post (C:=Demo.world))). repeat constructor.
Defined.

Lemma one_post_witness :
  exists batch,
    posts (effects (unfurl Demo.the_event 0)) =
      [PostUnfurl "C024BE91L" "1355517523.000005" batch] /\
    dom batch = list_to_set (resolved Demo.the_links 0).*1 /\
    (forall k a, batch !! k = Some a -> (k, a) ∈ resolved Demo.the_links 0) /\
    size batch <= length (resolved Demo.the_links 0) /\
    (NoDup (resolved Demo.the_links 0).*1 ->
     size batch = length (resolved Demo.the_links 0)) /\
    (forall k, batch !! k = last_entry (resolved Demo.the_links 0) k).
Proof.
  apply (one_post_with_the_resolved_entries (C:=Demo.world) Demo.the_event 0).
  - reflexivity.
  - vm_compute. discriminate.
Defined.

(** C4 as stated fails where two links of an event carry the same URL: both
    resolve, of three links, and the one post has one entry. *)
Lemma same_url_twice_one_entry :
  ~ one_entry_per_resolved_link Demo.twice 0.
Proof.
  assert (length (resolved (Links Demo.twice) 0) = 2) as HM
    by (vm_compute; reflexivity).
  assert (length (Links Demo.twice) = 3) as HN by reflexivity.
  assert (posts (effects (unfurl Demo.twice 0)) =
          [PostUnfurl "C024BE91L" "1355517523.000005"
             {[ "https://x.notion.so/Roadmap-abc123?v=1" :=
                  {| slack.Title := "Roadmap";
                     slack.TitleLink := "https://x.notion.so/Roadmap-abc123?v=1";
                     slack.Footer := "Notion";
                     slack.Text := get_text Demo.roadmap |} ]}]) as Hq
    by (vm_compute; reflexivity).
  unfold one_entry_per_resolved_link. cbv zeta. rewrite HM, HN, Hq.
  intros Hc. destruct Hc as (batch & Hp & Hs); [lia..|].
  injection Hp as <-. rewrite map_size_singleton in Hs. discriminate.
Qed.

Lemma domain_filter_witness :
  unfurl_link ∅ (Demo.link "example.com" "https://example.com/page") 0 = ret ∅ 0.
Proof.
  apply (proj1 (domain_filter_needs_dot_notion_so (C:=Demo.world))).
  intros Hp. apply HasSuffix_spec in Hp. vm_compute in Hp. discriminate.
Defined.

Lemma entry_keyed_witness :
  unfurl_link ∅ Demo.roadmap_link 0 =
  {| outcome_of :=
       Returned {[ "https://x.notion.so/Roadmap-abc123?v=1" :=
                     {| slack.Title := "Roadmap";
                        slack.TitleLink := "https://x.notion.so/Roadmap-abc123?v=1";
                        slack.Footer := "Notion";
                        slack.Text := get_text Demo.roadmap |} ]};
     remote := 1;
     effects := [Download "https://x.notion.so/Roadmap-abc123"; Println "Roadmap"] |}.
Proof.
  apply (proj1 (entry_keyed_by_original_url (C:=Demo.world)) ∅ Demo.roadmap_link 0
           Demo.roadmap_url Demo.roadmap 1 "Roadmap");
    try reflexivity.
  split; [discriminate|left; reflexivity].
Defined.

Lemma failed_link_witness :
  unfurl_links [Demo.link "x.notion.so" ":bad"; Demo.roadmap_link] ∅ 0
  = after [Log "parse: missing protocol scheme"]
      (unfurl_links [Demo.roadmap_link] ∅ 0) /\
  unfurl_links [Demo.missing_link; Demo.roadmap_link] ∅ 0
  = after [Download "https://x.notion.so/Gone-ffffff";
           Log "notion: page not found"]
      (unfurl_links [Demo.roadmap_link] ∅ 1).
Proof.
  split.
  - apply (proj1 (failed_link_is_logged_and_skipped (C:=Demo.world))); reflexivity.
  - apply (proj2 (failed_link_is_logged_and_skipped (C:=Demo.world)) Demo.missing_link
             [Demo.roadmap_link] ∅ 0 Demo.missing_url
             "notion: page not found" 1); reflexivity.
Defined.

Lemma empty_title_witness :
  outcome_of (unfurl (Demo.event [Demo.untitled_link; Demo.roadmap_link]) 0)
  = Panicked "runtime error: index out of range [0] with length 0".
Proof.
  apply (proj2 (empty_title_without_view_panics (C:=Demo.world) ∅ Demo.untitled_link 0
                  Demo.untitled_url Demo.untitled 1
                  eq_refl eq_refl eq_refl eq_refl eq_refl)
           [Demo.roadmap_link]).
  reflexivity.
Defined.

Lemma preview_lines_witness :
  text_of_markdown
    ("# Roadmap" +:+ newline +:+ "" +:+ newline +:+
     ("Q1: ship" +:+ newline +:+ "" +:+ newline +:+ "Q2: rest"))
  = "Q1: ship" +:+ newline +:+ "" +:+ newline +:+ "Q2: rest" /\
  text_of_markdown
    (GoStrings.Join ["# Roadmap"; ""; "Q1: ship"; ""; "Q2: rest"] newline)
  = text_of_markdown
      (GoStrings.Join ["secret title"; "x"; "Q1: ship"; ""; "Q2: rest"] newline).
Proof.
  split.
  - etrans.
    + apply (proj1 (proj2 (proj2 (proj2 preview_skips_two_lines_keeps_25)))
               "# Roadmap" ""
               ("Q1: ship" +:+ newline +:+ "" +:+ newline +:+ "Q2: rest"));
        [reflexivity|reflexivity|vm_compute; lia].
    + vm_compute. reflexivity.
  - apply (proj1 (proj2 (proj2 preview_skips_two_lines_keeps_25))
             "# Roadmap" "" "secret title" "x" ["Q1: ship"; ""; "Q2: rest"]).
    repeat constructor.
Defined.

Lemma preview_cut_witness :
  length (Utf8.runes_of_string (truncate Demo.long_text)) = 1000 /\
  truncate "Q1: ship" = "Q1: ship" /\
  exists rest, Demo.long_text = truncate Demo.long_text +:+ rest.
Proof.
  split; [|split].
  - apply (proj1 (proj2 (proj2 (proj2 preview_cut_at_1000_code_points)))).
    vm_compute. lia.
  - apply (proj1 (proj2 (proj2 (proj2 (proj2 preview_cut_at_1000_code_points))))
             "Q1: ship").
    + vm_compute. lia.
    + reflexivity.
  - apply (proj2 (proj2 (proj2 (proj2 (proj2 preview_cut_at_1000_code_points))))).
    vm_compute. reflexivity.
Defined.

(** C6 as stated fails on a document whose text is not well-formed UTF-8:
    after the two lines passed over, the one byte 0xFF is an extracted text of
    one code point, and the preview is the three bytes of U+FFFD. *)
Lemma ill_formed_byte_is_rewritten :
  ~ short_text_is_unchanged (String LF (String LF (String "255"%char EmptyString))).
Proof.
  assert (extracted_text (String LF (String LF (String "255"%char EmptyString)))
          = String "255"%char EmptyString) as He by (vm_compute; reflexivity).
  assert (length (Utf8.runes_of_string (String "255"%char EmptyString)) = 1) as Hl
    by (vm_compute; reflexivity).
  assert (text_of_markdown (String LF (String LF (String "255"%char EmptyString)))
          = String "239"%char (String "191"%char (String "189"%char EmptyString)))
    as Ht by (vm_compute; reflexivity).
  unfold short_text_is_unchanged. rewrite He, Hl, Ht. intros Hc.
  specialize (Hc ltac:(lia)). discriminate.
Qed.

(** ** The further properties at work *)

Lemma get_witness :
  index Rainy.probe = done (Fprint newResponseWriter "Hello") [] /\
  status (response (index Rainy.probe)) = 200 /\
  (write_error "Hello" = None -> body (response (index Rainy.probe)) = "Hello") /\
  (forall w, outbound_calls Rainy.probe w = []).
Proof.
  apply (get_is_greeted_unchecked (C:=Demo.world) Rainy.probe). reflexivity.
Defined.

Lemma other_methods_witness :
  status (response (index Rainy.lower_case)) = 405.
Proof.
  apply (other_methods_are_refused (C:=Demo.world) Rainy.lower_case); discriminate.
Defined.

Lemma handler_statuses_witness :
  (status (response (index Demo.forged)) = 200 \/
   status (response (index Demo.forged)) = 400 \/
   status (response (index Demo.forged)) = 405) /\
  length (handler_effects (index Demo.forged)) <= 1.
Proof.
  pose proof (handler_statuses (C:=Demo.world) Demo.forged eq_refl)
    as (Hs & _ & _ & Hl & _).
  split; [exact Hs|exact Hl].
Defined.

Lemma task_witness :
  exists payload ev,
    verified_event (Demo.signed "link_shared") payload ev /\
    Type_ ev = CallbackEvent /\
    InnerType (InnerEvent ev) = LinkShared /\
    Data (InnerEvent ev) = LinkSharedData Demo.the_event /\
    handler_effects (index (Demo.signed "link_shared")) = [Go Demo.the_event] /\
    status (response (index (Demo.signed "link_shared"))) = 200.
Proof.
  apply (proj1 (task_only_for_verified_link_shared (C:=Demo.world)
                  (Demo.signed "link_shared"))).
  vm_compute. constructor.
Defined.

Lemma link_shared_witness :
  index (Demo.signed "link_shared")
  = done (Fprint newResponseWriter "ok") [Go Demo.the_event].
Proof.
  apply (link_shared_is_acknowledged_and_dispatched (C:=Demo.world)
           (Demo.signed "link_shared") "link_shared"
           {| Type_ := CallbackEvent;
              InnerEvent := {| InnerType := LinkShared;
                               Data := LinkSharedData Demo.the_event |} |}
           Demo.the_event); try reflexivity.
  repeat split; reflexivity.
Defined.

Lemma other_events_witness :
  @index Rainy.outage (Demo.signed "app_mention")
  = done (Fprint newResponseWriter "ok") [] /\
  @index Rainy.outage (Demo.signed "app_rate_limited") = done newResponseWriter [].
Proof.
  split.
  - apply (proj1 (other_events_start_nothing (C:=Rainy.outage)
                    (Demo.signed "app_mention") "app_mention" Rainy.mention
                    ltac:(repeat split; reflexivity) ltac:(discriminate)));
      [reflexivity|discriminate].
  - apply (proj1 (proj2 (proj2 (other_events_start_nothing (C:=Rainy.outage)
                    (Demo.signed "app_rate_limited") "app_rate_limited"
                    Rainy.rate_limited
                    ltac:(repeat split; reflexivity) ltac:(discriminate))))).
    discriminate.
Defined.

Lemma unusable_body_witness :
  index Rainy.broken
  = done (WriteHeader newResponseWriter StatusBadRequest) [Log "unexpected EOF"] /\
  index (Demo.signed "{")
  = done (WriteHeader newResponseWriter StatusBadRequest)
         [Log "parse: unexpected end of JSON input"].
Proof.
  split.
  - apply (unusable_body_is_rejected (C:=Demo.world) Rainy.broken eq_refl).
    left. reflexivity.
  - apply (unusable_body_is_rejected (C:=Demo.world) (Demo.signed "{") eq_refl).
    right; left. exists "{". repeat split; reflexivity.
Defined.

Lemma posted_entries_witness :
  "C024BE91L" = Channel Demo.the_event /\
  exists pre link rest u page w',
    Links Demo.the_event = pre ++ link :: rest /\
    URL link = "https://x.notion.so/Roadmap-abc123?v=1" /\
    matching link = true /\
    url_Parse (URL link) = Ok u /\
    let pageID := ExtractNoDashIDFromNotionURL
                    (URL_String (url.set_Fragment (url.set_RawQuery u "") "")) in
    DownloadPage pageID (remote (unfurl_links pre ∅ 0)) = (Ok page, w') /\
    Download pageID ∈ effects (unfurl Demo.the_event 0) /\
    usable_title page "Roadmap" /\
    get_text Demo.roadmap = get_text page.
Proof.
  set (entry := {| slack.Title := "Roadmap";
                   slack.TitleLink := "https://x.notion.so/Roadmap-abc123?v=1";
                   slack.Footer := "Notion";
                   slack.Text := @get_text Demo.world Demo.roadmap |}).
  set (batch := ({[ "https://x.notion.so/Roadmap-abc123?v=1" := entry ]}
                 : gmap string slack.Attachment)).
  assert (effects (@unfurl Demo.world Demo.the_event 0) =
          [Download "https://x.notion.so/Roadmap-abc123"; Println "Roadmap";
           PostUnfurl "C024BE91L" "1355517523.000005" batch]) as He
    by (vm_compute; reflexivity).
  assert (PostUnfurl "C024BE91L" "1355517523.000005" batch
            ∈ effects (@unfurl Demo.world Demo.the_event 0)) as Hin
    by (rewrite He; repeat constructor).
  destruct (posted_entries_are_complete (C:=Demo.world) Demo.the_event 0
              "C024BE91L" "1355517523.000005" batch Hin)
    as (Hc & _ & _ & Hall).
  destruct (Hall "https://x.notion.so/Roadmap-abc123?v=1" entry
              (lookup_singleton_eq _ _))
    as (_ & _ & _ & _ & Hfetch & _).
  split; [exact Hc|exact Hfetch].
Defined.

Lemma last_entry_witness :
  ({[ "https://x.notion.so/Roadmap-abc123?v=1" :=
        {| slack.Title := "Roadmap";
           slack.TitleLink := "https://x.notion.so/Roadmap-abc123?v=1";
           slack.Footer := "Notion";
           slack.Text := get_text Demo.roadmap |} ]}
     : gmap string slack.Attachment) !! "https://x.notion.so/Roadmap-abc123?v=1"
  = last_entry (resolved (Links Demo.twice) 0)
      "https://x.notion.so/Roadmap-abc123?v=1".
Proof.
  apply (proj1 (batch_holds_the_last_entry_per_url (C:=Demo.world) Demo.twice 0)).
  vm_compute. reflexivity.
Defined.

Lemma post_error_witness :
  @unfurl Rainy.outage Demo.the_event 0 =
  @Build_run Rainy.outage unit (Returned tt) 2
    (effects (@unfurl_links Rainy.outage (Links Demo.the_event) ∅ 0) ++
     [PostUnfurl "C024BE91L" "1355517523.000005"
        {[ "https://x.notion.so/Roadmap-abc123?v=1" :=
             {| slack.Title := "Roadmap";
                slack.TitleLink := "https://x.notion.so/Roadmap-abc123?v=1";
                slack.Footer := "Notion";
                slack.Text := @get_text Rainy.outage Demo.roadmap |} ]};
      Log "channel_not_found"]).
Proof.
  set (batch := ({[ "https://x.notion.so/Roadmap-abc123?v=1" :=
                      {| slack.Title := "Roadmap";
                         slack.TitleLink := "https://x.notion.so/Roadmap-abc123?v=1";
                         slack.Footer := "Notion";
                         slack.Text := @get_text Rainy.outage Demo.roadmap |} ]}
                 : gmap string slack.Attachment)).
  assert (outcome_of (@unfurl_links Rainy.outage (Links Demo.the_event) ∅ 0)
          = Returned batch) as Ho by (vm_compute; reflexivity).
  assert (batch <> ∅) as Hne by apply insert_non_empty.
  apply (proj1 (post_error_is_logged_and_dropped (C:=Rainy.outage) Demo.the_event 0
                  batch Ho Hne)).
  reflexivity.
Defined.

Lemma unnamed_view_witness :
  @unfurl_links Rainy.outage [Rainy.blank_link; Demo.roadmap_link] ∅ 0 =
  @after Rainy.outage _
    [Download "https://x.notion.so/Blank-1b1b1b"; Log "title is not found"]
    (@unfurl_links Rainy.outage [Demo.roadmap_link] ∅ 1).
Proof.
  apply (unnamed_first_view_is_logged_and_skipped (C:=Rainy.outage)
           Rainy.blank_link [Demo.roadmap_link] ∅ 0 Rainy.blank_url
           Rainy.blank 1 "" ["Archive"]); reflexivity.
Defined.

Lemma panic_witness :
  outcome_of
    (unfurl (Demo.event [Demo.roadmap_link; Demo.untitled_link; Demo.roadmap_link]) 0)
  = Panicked "runtime error: index out of range [0] with length 0" /\
  posts (effects
    (unfurl (Demo.event [Demo.roadmap_link; Demo.untitled_link; Demo.roadmap_link]) 0))
  = [].
Proof.
  set (batch := ({[ "https://x.notion.so/Roadmap-abc123?v=1" :=
                      {| slack.Title := "Roadmap";
                         slack.TitleLink := "https://x.notion.so/Roadmap-abc123?v=1";
                         slack.Footer := "Notion";
                         slack.Text := @get_text Demo.world Demo.roadmap |} ]}
                 : gmap string slack.Attachment)).
  assert (outcome_of (@unfurl_links Demo.world [Demo.roadmap_link] ∅ 0)
          = Returned batch)
    as Ho by (vm_compute; reflexivity).
  pose proof (panic_discards_the_batch (C:=Demo.world)
                (Demo.event [Demo.roadmap_link; Demo.untitled_link; Demo.roadmap_link])
                0 [Demo.roadmap_link] Demo.untitled_link [Demo.roadmap_link]
                batch "runtime error: index out of range [0] with length 0"
                eq_refl Ho eq_refl)
    as (Hout & _ & _ & Hp).
  split; [exact Hout|exact Hp].
Defined.

Lemma no_preview_witness : text_of_markdown "# Roadmap" = "".
Proof.
  apply (proj1 two_lines_give_no_preview). vm_compute. lia.
Defined.

Lemma short_body_witness :
  text_of_markdown
    ("# Roadmap" +:+ newline +:+ "" +:+ newline +:+ ("Q1: ship" +:+ newline +:+ "Q2: rest"))
  = "Q1: ship" +:+ newline +:+ "Q2: rest".
Proof.
  apply (short_body_is_kept_verbatim "# Roadmap" ""
           ("Q1: ship" +:+ newline +:+ "Q2: rest")); try reflexivity.
  - vm_compute. lia.
  - vm_compute. lia.
Defined.

Lemma scalar_values_witness :
  Utf8.runes_of_string (Utf8.string_of_runes [65; 233; 8364; 128512]%Z)
  = [65; 233; 8364; 128512]%Z /\
  Utf8.runes_of_string (Utf8.string_of_runes [55296%Z]) = [Utf8.RuneError].
Proof.
  split.
  - apply (proj1 scalar_values_round_trip).
    repeat constructor;
      unfold scalar_value, Utf8.surrogateMin, Utf8.surrogateMax, Utf8.MaxRune; lia.
  - apply (proj1 (proj2 scalar_values_round_trip)); [lia|].
    unfold scalar_value, Utf8.surrogateMin, Utf8.surrogateMax, Utf8.MaxRune. lia.
Defined.

Lemma initialize_witness :
  (initialize Rainy.env vars.zero).1 =
    {| vars.notionClient := Some "secret_n";
       vars.slackCli := Some "xoxb-1";
       vars.slackSigningSecret := "8f742231b10e" |} /\
  (initialize (delete "SLACK_TOKEN" Rainy.env) vars.zero).2
    = Some "env SLACK_TOKEN is empty".
Proof.
  split.
  - apply (proj1 (proj2 (initialize_needs_the_slack_settings Rainy.env vars.zero))).
    reflexivity.
  - apply (proj1 (proj2 (proj2 (proj2
             (initialize_needs_the_slack_settings
                (delete "SLACK_TOKEN" Rainy.env) vars.zero))))).
    + discriminate.
    + reflexivity.
Defined.

Lemma run_witness :
  Run_server_Addr (delete "SLACK_SIGNING_SECRET" Rainy.env) vars.zero
  = ((initialize (delete "SLACK_SIGNING_SECRET" Rainy.env) vars.zero).1,
     Err "env SLACK_SIGNING_SECRET required") /\
  vars.slackSigningSecret (initialize Rainy.env vars.zero).1 <> "".
Proof.
  split.
  - apply (proj1 (run_serves_only_when_initialized
                    (delete "SLACK_SIGNING_SECRET" Rainy.env) vars.zero)).
    reflexivity.
  - apply (proj2 (run_serves_only_when_initialized Rainy.env vars.zero)
             (initialize Rainy.env vars.zero).1 ":8080").
    reflexivity.
Defined.
